(** * rocBLAS client test harness: [spr2] tests and shared utilities

    Shallow embedding of
      - clients/include/blas2/testing_spr2.hpp
          ([testing_spr2_bad_arg], [testing_spr2])
      - clients/include/utility.hpp
          ([rocblas_local_handle], [rocblas_print_helper::print_value])

    The vendor library (rocBLAS, HIP), the CPU reference BLAS, the C library
    and the test macros are external to these two files.  They appear here
    as parameters (the record [externals], section variables); everything
    the two files compute themselves is a definition. *)

From Stdlib Require Import ZArith List String Ascii Bool Lia.
From Stdlib Require Import SpecFloat.
Import ListNotations.

Local Open Scope Z_scope.

(* ================================================================== *)
(** * Machine integers

    [rocblas_int] is a 32-bit signed integer and [size_t] a 64-bit unsigned
    one.  Unsigned arithmetic wraps modulo [2^64].  Signed overflow is
    undefined behaviour in C++; the model uses the two's-complement
    wrap-around the supported targets produce. *)

Module CInt.

Definition int_min : Z := - 2 ^ 31.
Definition int_max : Z := 2 ^ 31 - 1.

(** Values representable as [rocblas_int]. *)
Definition in_int (z : Z) : Prop := int_min <= z <= int_max.

(** Two's-complement reduction of a mathematical integer to [int]. *)
Definition wrap_int (z : Z) : Z := (z + 2 ^ 31) mod 2 ^ 32 - 2 ^ 31.

Definition int_add (a b : Z) : Z := wrap_int (a + b).
Definition int_neg (a : Z) : Z := wrap_int (- a).

(** Conversion of an [int] to [size_t] and [size_t] arithmetic. *)
Definition to_size_t (z : Z) : Z := z mod 2 ^ 64.
Definition size_mul (a b : Z) : Z := (a * b) mod 2 ^ 64.
Definition size_div (a b : Z) : Z := a / b.

End CInt.

(* ================================================================== *)
(** * Buffer sizes (testing_spr2.hpp, lines 31-35 and 84-88) *)

Section Sizes.
Import CInt.

(** [size_t abs_incx = incx >= 0 ? incx : -incx;] *)
Definition abs_inc (inc : Z) : Z :=
  to_size_t (if 0 <=? inc then inc else int_neg inc).

(** [size_t size_A = size_t(N) * (N + 1) / 2;] *)
Definition size_A_of (N : Z) : Z :=
  size_div (size_mul (to_size_t N) (to_size_t (int_add N 1))) 2.

(** [size_t size_x = size_t(N) * abs_incx;] (and likewise [size_y]) *)
Definition size_vec_of (N abs_increment : Z) : Z :=
  size_mul (to_size_t N) abs_increment.

End Sizes.

(* ================================================================== *)
(** * Vendor API types (rocblas.h, hip_runtime_api.h)

    Only the enumerators the two files name are listed, with one extra
    constructor standing for every other code. *)

Inductive rocblas_status : Type :=
| rocblas_status_success
| rocblas_status_invalid_handle
| rocblas_status_invalid_pointer
| rocblas_status_invalid_size
| rocblas_status_invalid_value
| rocblas_status_other (code : positive).

Inductive hipError_t : Type :=
| hipSuccess
| hipError (code : positive).

Inductive rocblas_fill : Type :=
| rocblas_fill_upper
| rocblas_fill_lower
| rocblas_fill_full.

Inductive rocblas_pointer_mode : Type :=
| rocblas_pointer_mode_host
| rocblas_pointer_mode_device.

Definition rocblas_status_eqb (a b : rocblas_status) : bool :=
  match a, b with
  | rocblas_status_success, rocblas_status_success => true
  | rocblas_status_invalid_handle, rocblas_status_invalid_handle => true
  | rocblas_status_invalid_pointer, rocblas_status_invalid_pointer => true
  | rocblas_status_invalid_size, rocblas_status_invalid_size => true
  | rocblas_status_invalid_value, rocblas_status_invalid_value => true
  | rocblas_status_other p, rocblas_status_other q => Pos.eqb p q
  | _, _ => false
  end.

Definition hipError_eqb (a b : hipError_t) : bool :=
  match a, b with
  | hipSuccess, hipSuccess => true
  | hipError p, hipError q => Pos.eqb p q
  | _, _ => false
  end.

(** IEEE binary64 values, as the harness's [double] variables hold them. *)
Definition double : Type := spec_float.
Definition double_sub : double -> double -> double := SFsub 53 1024.

(** The literal [0.6] rounded to binary64. *)
Definition double_0_6 : double := S754_finite false 5404319552844595 (-53).

(* ================================================================== *)
(** * [rocblas_local_handle] (utility.hpp, lines 36-59) *)

Module LocalHandle.
Section LocalHandle.
Context {rocblas_handle : Type}.

(** Calls into the vendor's handle API. *)
Inductive handle_call : Type :=
  | call_create_handle (stored : rocblas_handle)
  | call_destroy_handle (h : rocblas_handle).

(** [rocblas_create_handle(&handle)]: the value the vendor stores through
  the out-pointer.  The returned status is discarded by the class. *)
Variable rocblas_create_handle : rocblas_handle.

(** The class has one data member. *)
Record rocblas_local_handle : Type := { handle : rocblas_handle }.

(** [rocblas_local_handle() { rocblas_create_handle(&handle); }] *)
Definition ctor : list handle_call * rocblas_local_handle :=
  ([call_create_handle rocblas_create_handle],
   {| handle := rocblas_create_handle |}).

(** [~rocblas_local_handle() { rocblas_destroy_handle(handle); }] *)
Definition dtor (self : rocblas_local_handle) : list handle_call :=
  [call_destroy_handle (handle self)].

(** [operator rocblas_handle&()] and [operator const rocblas_handle&() const]:
  each hands out a reference to the member and leaves the object as it
  is.  The result here is the value read through that reference, which is
  what the harness does with it when it passes the wrapper to a vendor
  function. *)
Definition to_handle (self : rocblas_local_handle)
  : list handle_call * rocblas_local_handle * rocblas_handle :=
  ([], self, handle self).

Definition to_const_handle (self : rocblas_local_handle)
  : list handle_call * rocblas_local_handle * rocblas_handle :=
  ([], self, handle self).

(** The class declares neither a copy constructor nor a copy assignment
  operator and deletes none, so the compiler defines both: each copies the
  one data member and makes no vendor call. *)

(** [rocblas_local_handle(const rocblas_local_handle&)], implicitly
  defined: the new object gets the other's handle. *)
Definition copy_ctor (other : rocblas_local_handle)
  : list handle_call * rocblas_local_handle :=
  ([], {| handle := handle other |}).

(** [rocblas_local_handle& operator=(const rocblas_local_handle&)],
  implicitly defined: the object's handle is overwritten by the other's. *)
Definition copy_assignment (self other : rocblas_local_handle)
  : list handle_call * rocblas_local_handle :=
  ([], {| handle := handle other |}).

Definition is_create (c : handle_call) : bool :=
  match c with call_create_handle _ => true | _ => false end.
Definition is_destroy (c : handle_call) : bool :=
  match c with call_destroy_handle _ => true | _ => false end.

End LocalHandle.

(** ** A block of client code with local wrappers

  Objects are named by their position in declaration order. *)

Inductive statement : Type :=
| declare                         (* rocblas_local_handle v;       *)
| declare_copy (src : nat)        (* rocblas_local_handle v = src; *)
| assign_copy (dst src : nat)     (* dst = src;                    *)
| to_handle_of (obj : nat)        (* rocblas_handle& r = obj;      *)
| to_const_handle_of (obj : nat). (* the same on a const object    *)

Section Block.
Context {rocblas_handle : Type}.

(** The handle the vendor stores at the [k]-th [rocblas_create_handle] of
  the block. *)
Variable created : nat -> rocblas_handle.

(** The objects declared so far, in declaration order, and the number of
  handles created so far. *)
Record locals : Type := {
  objects : list (@rocblas_local_handle rocblas_handle);
  creations : nat
}.

Definition put (i : nat) (v : @rocblas_local_handle rocblas_handle)
    (l : list (@rocblas_local_handle rocblas_handle))
  : list (@rocblas_local_handle rocblas_handle) :=
  firstn i l ++ v :: skipn (S i) l.

(** One statement: the vendor calls it makes and the objects afterwards.
  [None]: the statement names an object that is not declared. *)
Definition step (s : statement) (st : locals)
  : option (list (@handle_call rocblas_handle) * locals) :=
  match s with
  | declare =>
      let '(cs, v) := ctor (created (creations st)) in
      Some (cs, {| objects := objects st ++ [v];
                   creations := S (creations st) |})
  | declare_copy src =>
      match nth_error (objects st) src with
      | Some o =>
          let '(cs, v) := copy_ctor o in
          Some (cs, {| objects := objects st ++ [v];
                       creations := creations st |})
      | None => None
      end
  | assign_copy dst src =>
      match nth_error (objects st) dst, nth_error (objects st) src with
      | Some d, Some o =>
          let '(cs, v) := copy_assignment d o in
          Some (cs, {| objects := put dst v (objects st);
                       creations := creations st |})
      | _, _ => None
      end
  | to_handle_of obj =>
      match nth_error (objects st) obj with
      | Some o =>
          let '(cs, o', _) := to_handle o in
          Some (cs, {| objects := put obj o' (objects st);
                       creations := creations st |})
      | None => None
      end
  | to_const_handle_of obj =>
      match nth_error (objects st) obj with
      | Some o =>
          let '(cs, o', _) := to_const_handle o in
          Some (cs, {| objects := put obj o' (objects st);
                       creations := creations st |})
      | None => None
      end
  end.

Fixpoint run (ss : list statement) (st : locals)
  : option (list (@handle_call rocblas_handle) * locals) :=
  match ss with
  | [] => Some ([], st)
  | s :: rest =>
      match step s st with
      | Some (cs, st1) =>
          match run rest st1 with
          | Some (cs', st2) => Some (cs ++ cs', st2)
          | None => None
          end
      | None => None
      end
  end.

(** [{ statements }]: the statements in order, then at the closing brace
  the destructors of the objects in reverse order of declaration. *)
Definition block (ss : list statement)
  : option (list (@handle_call rocblas_handle)) :=
  match run ss {| objects := []; creations := O |} with
  | Some (cs, st) => Some (cs ++ flat_map dtor (rev (objects st)))
  | None => None
  end.

(** Statements that neither copy-construct nor copy-assign. *)
Definition copies_nothing (s : statement) : bool :=
  match s with
  | declare | to_handle_of _ | to_const_handle_of _ => true
  | declare_copy _ | assign_copy _ _ => false
  end.

(** The objects of a block that has copied nothing: the [k]-th one holds
  the [k]-th handle created. *)
Definition fresh_objects (n : nat)
  : list (@rocblas_local_handle rocblas_handle) :=
  map (fun k => {| handle := created k |}) (seq 0 n).

Definition count_declare (ss : list statement) : nat :=
  List.length (filter (fun s => match s with declare => true | _ => false end)
                 ss).

End Block.
End LocalHandle.

(* ================================================================== *)
(** * The test harness (testing_spr2.hpp) *)

(** The local vectors of the two test functions. *)
Inductive buffer : Type :=
| hA_1 | hA_2 | hA_gold | hx | hy | halpha
| dA_1 | dA_2 | dx | dy | d_alpha.

Definition buffer_index (b : buffer) : nat :=
  match b with
  | hA_1 => 0 | hA_2 => 1 | hA_gold => 2 | hx => 3 | hy => 4 | halpha => 5
  | dA_1 => 6 | dA_2 => 7 | dx => 8 | dy => 9 | d_alpha => 10
  end%nat.

Definition buffer_eqb (a b : buffer) : bool :=
  Nat.eqb (buffer_index a) (buffer_index b).

(** The four checking macros of rocblas_test.hpp the harness uses. *)
Inductive check_macro : Type :=
| macro_CHECK_HIP_ERROR
| macro_CHECK_DEVICE_ALLOCATION
| macro_CHECK_ROCBLAS_ERROR
| macro_EXPECT_ROCBLAS_STATUS.

(** The fields of [Arguments] that testing_spr2.hpp reads. *)
Record Arguments : Type := {
  fortran : bool;
  arg_N : Z;
  incx : Z;
  incy : Z;
  uplo : ascii;
  alpha : double;
  unit_check : bool;
  norm_check : bool;
  timing : bool;
  cold_iters : Z;
  iters : Z
}.

(** A statement either completes with a value or is cut short by a failed
    fatal check.  What the macro does then (return from the test function
    or end the process) is not in the two files: the record of the run
    ends at the failed check. *)
Inductive outcome (A : Type) : Type :=
| Returned (a : A)
| Stopped.
Arguments Returned {A} a.
Arguments Stopped {A}.

Section Harness.
Context {T rocblas_handle hipStream_t RNG : Type}.

(** A vector argument of the vendor call: [nullptr], or a device vector
    together with what it holds when the call is made. *)
Inductive vector_arg : Type :=
| vec_null
| vec_dev (b : buffer) (contents : list T).

(** The [alpha] argument: [nullptr], the address of a host scalar, or a
    device vector. *)
Inductive scalar_arg : Type :=
| scalar_null
| scalar_host (value : T)
| scalar_dev (b : buffer) (contents : list T).

(** One invocation of [rocblas_spr2_fn]: which binding, the pointer mode the
    harness last set on the handle ([None]: never set), and the nine
    arguments in source order. *)
Record spr2_call : Type := {
  c_fortran : bool;
  c_mode : option rocblas_pointer_mode;
  c_handle : option rocblas_handle;
  c_uplo : rocblas_fill;
  c_N : Z;
  c_alpha : scalar_arg;
  c_x : vector_arg;
  c_incx : Z;
  c_y : vector_arg;
  c_incy : Z;
  c_A : vector_arg
}.

(** What a run does, in program order. *)
Inductive event : Type :=
| ev_handle (c : @LocalHandle.handle_call rocblas_handle)
| ev_alloc (b : buffer) (n : Z)
| ev_free (b : buffer)
| ev_memcheck (b : buffer)
| ev_store (b : buffer) (index : nat) (v : T)
| ev_init (b : buffer) (flag : bool)
| ev_assign (dst src : buffer)
| ev_transfer (dst src : buffer) (data : list T)
| ev_set_pointer_mode (m : rocblas_pointer_mode)
| ev_get_stream
| ev_spr2 (c : spr2_call)
| ev_cblas_spr2 (ul : rocblas_fill) (n : Z) (al : T) (x : list T) (ix : Z)
    (y : list T) (iy : Z) (A : list T)
| ev_time_no_sync
| ev_time_sync (s : hipStream_t)
| ev_unit_check (M n lda : Z) (gold result : list T)
| ev_norm_check (norm_type : ascii) (M n lda : Z) (gold result : list T)
| ev_check_hip (m : check_macro) (actual : hipError_t)
| ev_expect (m : check_macro) (actual expected : rocblas_status)
| ev_log_args (gpu_time gflop gbyte : double)
    (cpu_time error_1 error_2 : option double).

(** Everything the harness calls but does not define. *)
Record externals : Type := {
  (* Arguments and conversions *)
  get_alpha : Arguments -> T;
  char2rocblas_fill : ascii -> rocblas_fill;
  T_of_double : double -> T;
  (* the vendor library *)
  rocblas_create_handle : rocblas_handle;
  rocblas_spr2_status : spr2_call -> rocblas_status;
  rocblas_spr2_result : spr2_call -> list T;
  rocblas_set_pointer_mode_status :
    rocblas_handle -> rocblas_pointer_mode -> rocblas_status;
  rocblas_get_stream_result : rocblas_handle -> rocblas_status * hipStream_t;
  (* host and device vectors *)
  fresh : buffer -> nat -> T;
  memcheck_result : buffer -> hipError_t;
  transfer_result : buffer -> buffer -> hipError_t;
  (* initialisation, reference BLAS, comparison, clocks, flop counts *)
  rocblas_init_result : RNG -> list T -> bool -> RNG * list T;
  cblas_spr2_result :
    rocblas_fill -> Z -> T -> list T -> Z -> list T -> Z -> list T -> list T;
  norm_check_general_result :
    ascii -> Z -> Z -> Z -> list T -> list T -> double;
  time_no_sync : nat -> double;
  time_sync : hipStream_t -> nat -> double;
  spr2_gflop_count : Z -> double;
  spr2_gbyte_count : Z -> double;
  (* whether a failed check of the given macro leaves the test function *)
  fatal : check_macro -> bool
}.

(** The state a run threads: vector contents, the random generator, the
    number of clock readings so far, the pointer mode last set. *)
Record world : Type := {
  mem : buffer -> list T;
  rng : RNG;
  ticks : nat;
  pmode : option rocblas_pointer_mode
}.

Definition set_mem (w : world) (b : buffer) (l : list T) : world :=
  {| mem := fun b' => if buffer_eqb b' b then l else mem w b';
     rng := rng w; ticks := ticks w; pmode := pmode w |}.

Definition M (A : Type) : Type := world -> list event * world * outcome A.

Definition ret {A} (a : A) : M A := fun w => ([], w, Returned a).

Definition bind {A B} (m : M A) (k : A -> M B) : M B :=
  fun w =>
    match m w with
    | (es, w1, Returned a) =>
        match k a w1 with (es', w2, o) => (es ++ es', w2, o) end
    | (es, w1, Stopped) => (es, w1, Stopped)
    end.

Definition emit (e : event) : M unit := fun w => ([e], w, Returned tt).

End Harness.

Arguments externals : clear implicits.
Arguments M : clear implicits.
Arguments world : clear implicits.

Declare Scope harness_scope.
Delimit Scope harness_scope with harness.
Notation "x <- m ;; k" := (bind m (fun x => k))
  (at level 61, m at next level, right associativity) : harness_scope.
Notation "m ;; k" := (bind m (fun _ => k))
  (at level 61, right associativity) : harness_scope.

Section Program.
Context {T rocblas_handle hipStream_t RNG : Type}.
Variable X : externals T rocblas_handle hipStream_t RNG.

Local Abbreviation M := (M T rocblas_handle hipStream_t RNG).
Local Abbreviation world := (world T RNG).
Local Open Scope harness_scope.

(** ** State updates *)

Definition set_rng (w : world) (g : RNG) : world :=
  {| mem := mem w; rng := g; ticks := ticks w; pmode := pmode w |}.

Definition tick (w : world) : world :=
  {| mem := mem w; rng := rng w; ticks := S (ticks w); pmode := pmode w |}.

Definition set_pmode (w : world) (m : option rocblas_pointer_mode) : world :=
  {| mem := mem w; rng := rng w; ticks := ticks w; pmode := m |}.

(** ** The checking macros

    Each evaluates its argument once and compares the status with the
    expected one.  Whether a mismatch leaves the test function is the
    macro's business ([fatal]). *)

Definition after_check (m : check_macro) (passed : bool) : M unit :=
  fun w =>
    ([], w, if passed then Returned tt
            else if fatal X m then Stopped else Returned tt).

Definition check_hip (m : check_macro) (e : M hipError_t) : M unit :=
  r <- e ;;
  emit (ev_check_hip m r) ;;
  after_check m (hipError_eqb r hipSuccess).

Definition CHECK_HIP_ERROR : M hipError_t -> M unit :=
  check_hip macro_CHECK_HIP_ERROR.

Definition CHECK_DEVICE_ALLOCATION : M hipError_t -> M unit :=
  check_hip macro_CHECK_DEVICE_ALLOCATION.

Definition expect_status (m : check_macro) (e : M rocblas_status)
    (expected : rocblas_status) : M unit :=
  r <- e ;;
  emit (ev_expect m r expected) ;;
  after_check m (rocblas_status_eqb r expected).

Definition EXPECT_ROCBLAS_STATUS : M rocblas_status -> rocblas_status -> M unit :=
  expect_status macro_EXPECT_ROCBLAS_STATUS.

Definition CHECK_ROCBLAS_ERROR (e : M rocblas_status) : M unit :=
  expect_status macro_CHECK_ROCBLAS_ERROR e rocblas_status_success.

(** ** The handle wrapper, as the harness uses it *)

Definition local_handle_ctor : M (@LocalHandle.rocblas_local_handle rocblas_handle) :=
  fun w =>
    let '(cs, self) := LocalHandle.ctor (rocblas_create_handle X) in
    (map ev_handle cs, w, Returned self).

Definition local_handle_dtor
    (self : @LocalHandle.rocblas_local_handle rocblas_handle) : M unit :=
  fun w => (map ev_handle (LocalHandle.dtor self), w, Returned tt).

(** Passing the wrapper where a [rocblas_handle] is expected goes through
    its conversion operator. *)
Definition handle_of
    (self : @LocalHandle.rocblas_local_handle rocblas_handle) : rocblas_handle :=
  let '(_, _, h) := LocalHandle.to_handle self in h.

(** ** Host and device vectors *)

Definition new_storage (b : buffer) (n : Z) : list T :=
  map (fresh X b) (seq 0 (Z.to_nat n)).

(** [host_vector<T> v(n)] and [device_vector<T> v(n)]. *)
Definition host_vector (b : buffer) (n : Z) : M unit :=
  fun w => ([ev_alloc b n], set_mem w b (new_storage b n), Returned tt).

Definition device_vector (b : buffer) (n : Z) : M unit :=
  fun w => ([ev_alloc b n], set_mem w b (new_storage b n), Returned tt).

Definition memcheck (b : buffer) : M hipError_t :=
  fun w => ([ev_memcheck b], w, Returned (memcheck_result X b)).

Definition store_at (i : nat) (v : T) (l : list T) : list T :=
  firstn i l ++ match skipn i l with [] => [] | _ :: tl => v :: tl end.

(** [v[i] = x] *)
Definition store (b : buffer) (i : nat) (v : T) : M unit :=
  fun w => ([ev_store b i v], set_mem w b (store_at i v (mem w b)), Returned tt).

(** [rocblas_init(v, flag)] *)
Definition rocblas_init (b : buffer) (flag : bool) : M unit :=
  fun w =>
    let r := rocblas_init_result X (rng w) (mem w b) flag in
    ([ev_init b flag], set_mem (set_rng w (fst r)) b (snd r), Returned tt).

(** [dst = src] on host vectors. *)
Definition assign (dst src : buffer) : M unit :=
  fun w => ([ev_assign dst src], set_mem w dst (mem w src), Returned tt).

(** [dst.transfer_from(src)]; a failed copy leaves the destination as it
    was. *)
Definition transfer_from (dst src : buffer) : M hipError_t :=
  fun w =>
    let r := transfer_result X dst src in
    ([ev_transfer dst src (mem w src)],
     set_mem w dst (if hipError_eqb r hipSuccess then mem w src else mem w dst),
     Returned r).

Definition free (b : buffer) : M unit := emit (ev_free b).

(** Destructors of the local vectors, in the order given. *)
Fixpoint scope_exit (bs : list buffer) : M unit :=
  match bs with
  | [] => ret tt
  | b :: rest => free b ;; scope_exit rest
  end.

(** ** Vendor and reference calls *)

(** How the harness names the [alpha] argument and the vector arguments. *)
Inductive alpha_ptr : Type :=
| alpha_nullptr
| alpha_addr (value : T)
| alpha_vec (b : buffer).

Definition snapshot (w : world) (p : option buffer) : @vector_arg T :=
  match p with
  | None => vec_null
  | Some b => vec_dev b (mem w b)
  end.

Definition snapshot_alpha (w : world) (p : alpha_ptr) : @scalar_arg T :=
  match p with
  | alpha_nullptr => scalar_null
  | alpha_addr v => scalar_host v
  | alpha_vec b => scalar_dev b (mem w b)
  end.

(** [rocblas_spr2<T, FORTRAN>(handle, uplo, N, alpha, x, incx, y, incy, A)]:
    the vendor reports a status and leaves its result in [A]. *)
Definition rocblas_spr2 (is_fortran : bool) (h : option rocblas_handle)
    (ul : rocblas_fill) (n : Z) (al : alpha_ptr) (x : option buffer) (ix : Z)
    (y : option buffer) (iy : Z) (A : option buffer) : M rocblas_status :=
  fun w =>
    let c := {| c_fortran := is_fortran; c_mode := pmode w; c_handle := h;
                c_uplo := ul; c_N := n; c_alpha := snapshot_alpha w al;
                c_x := snapshot w x; c_incx := ix;
                c_y := snapshot w y; c_incy := iy;
                c_A := snapshot w A |} in
    ([ev_spr2 c],
     match A with
     | Some b => set_mem w b (rocblas_spr2_result X c)
     | None => w
     end,
     Returned (rocblas_spr2_status X c)).

Definition rocblas_set_pointer_mode (h : rocblas_handle)
    (m : rocblas_pointer_mode) : M rocblas_status :=
  fun w =>
    let r := rocblas_set_pointer_mode_status X h m in
    ([ev_set_pointer_mode m],
     set_pmode w
       (if rocblas_status_eqb r rocblas_status_success then Some m else pmode w),
     Returned r).

(** [rocblas_get_stream(handle, &stream)]: the status; the stream it stores
    is [stream_of]. *)
Definition rocblas_get_stream (h : rocblas_handle) : M rocblas_status :=
  fun w => ([ev_get_stream], w, Returned (fst (rocblas_get_stream_result X h))).

Definition stream_of (h : rocblas_handle) : hipStream_t :=
  snd (rocblas_get_stream_result X h).

(** [cblas_spr2<T>(uplo, N, alpha, x, incx, y, incy, A)] updates [A]. *)
Definition cblas_spr2 (ul : rocblas_fill) (n : Z) (al : T) (x : buffer)
    (ix : Z) (y : buffer) (iy : Z) (A : buffer) : M unit :=
  fun w =>
    ([ev_cblas_spr2 ul n al (mem w x) ix (mem w y) iy (mem w A)],
     set_mem w A
       (cblas_spr2_result X ul n al (mem w x) ix (mem w y) iy (mem w A)),
     Returned tt).

Definition get_time_us_no_sync : M double :=
  fun w => ([ev_time_no_sync], tick w, Returned (time_no_sync X (ticks w))).

Definition get_time_us_sync (s : hipStream_t) : M double :=
  fun w => ([ev_time_sync s], tick w, Returned (time_sync X s (ticks w))).

Definition unit_check_general (m n lda : Z) (gold result : buffer) : M unit :=
  fun w => ([ev_unit_check m n lda (mem w gold) (mem w result)], w, Returned tt).

Definition norm_check_general (ty : ascii) (m n lda : Z)
    (gold result : buffer) : M double :=
  fun w =>
    ([ev_norm_check ty m n lda (mem w gold) (mem w result)], w,
     Returned (norm_check_general_result X ty m n lda (mem w gold) (mem w result))).

(** [ArgumentModel<...>{}.log_args<T>(rocblas_cout, arg, ...)].  The last
    three arguments are locals that may never have been assigned; [None]
    stands for such an indeterminate value. *)
Definition log_args (gpu_time gflop gbyte : double)
    (cpu_time error_1 error_2 : option double) : M unit :=
  emit (ev_log_args gpu_time gflop gbyte cpu_time error_1 error_2).

(** [for(int iter = 0; iter < n; iter++) body] with [n] already brought to
    its trip count: a non-positive bound gives no iteration. *)
Fixpoint for_loop (trips : nat) (body : M unit) : M unit :=
  match trips with
  | O => ret tt
  | S k => body ;; for_loop k body
  end.

(** ** [testing_spr2_bad_arg] (lines 19-60) *)

Definition testing_spr2_bad_arg (arg : Arguments) : M unit :=
  let rocblas_spr2_fn := rocblas_spr2 (fortran arg) in
  let uplo := rocblas_fill_upper in
  let N := 100 in
  let incx := 1 in
  let incy := 1 in
  let alpha := T_of_double X double_0_6 in
  handle <- local_handle_ctor ;;
  let abs_incx := abs_inc incx in
  let abs_incy := abs_inc incy in
  let size_A := size_A_of N in
  let size_x := size_vec_of N abs_incx in
  let size_y := size_vec_of N abs_incy in
  device_vector dA_1 size_A ;;
  device_vector dx size_x ;;
  device_vector dy size_y ;;
  CHECK_DEVICE_ALLOCATION (memcheck dA_1) ;;
  CHECK_DEVICE_ALLOCATION (memcheck dx) ;;
  CHECK_DEVICE_ALLOCATION (memcheck dy) ;;
  EXPECT_ROCBLAS_STATUS
    (rocblas_spr2_fn (Some (handle_of handle)) rocblas_fill_full N
       (alpha_addr alpha) (Some dx) incx (Some dy) incy (Some dA_1))
    rocblas_status_invalid_value ;;
  EXPECT_ROCBLAS_STATUS
    (rocblas_spr2_fn (Some (handle_of handle)) uplo N
       (alpha_addr alpha) None incx (Some dy) incy (Some dA_1))
    rocblas_status_invalid_pointer ;;
  EXPECT_ROCBLAS_STATUS
    (rocblas_spr2_fn (Some (handle_of handle)) uplo N
       (alpha_addr alpha) (Some dx) incx None incy (Some dA_1))
    rocblas_status_invalid_pointer ;;
  EXPECT_ROCBLAS_STATUS
    (rocblas_spr2_fn (Some (handle_of handle)) uplo N
       (alpha_addr alpha) (Some dx) incx (Some dy) incy None)
    rocblas_status_invalid_pointer ;;
  EXPECT_ROCBLAS_STATUS
    (rocblas_spr2_fn None uplo N
       (alpha_addr alpha) (Some dx) incx (Some dy) incy (Some dA_1))
    rocblas_status_invalid_handle ;;
  scope_exit [dy; dx; dA_1] ;;
  local_handle_dtor handle.

(** ** [testing_spr2] (lines 62-200) *)

Definition testing_spr2 (arg : Arguments) : M unit :=
  let rocblas_spr2_fn := rocblas_spr2 (fortran arg) in
  let N := arg_N arg in
  let incx := incx arg in
  let incy := incy arg in
  let h_alpha := get_alpha X arg in
  let uplo := char2rocblas_fill X (uplo arg) in
  handle <- local_handle_ctor ;;
  (if (N <? 0) || (incx =? 0) || (incy =? 0) then
     (* argument check before allocating invalid memory *)
     EXPECT_ROCBLAS_STATUS
       (rocblas_spr2_fn (Some (handle_of handle)) uplo N
          alpha_nullptr None incx None incy None)
       rocblas_status_invalid_size
   else
     let abs_incx := abs_inc incx in
     let abs_incy := abs_inc incy in
     let size_A := size_A_of N in
     let size_x := size_vec_of N abs_incx in
     let size_y := size_vec_of N abs_incy in
     host_vector hA_1 size_A ;;
     host_vector hA_2 size_A ;;
     host_vector hA_gold size_A ;;
     host_vector hx size_x ;;
     host_vector hy size_y ;;
     host_vector halpha 1 ;;
     CHECK_HIP_ERROR (memcheck hA_1) ;;
     CHECK_HIP_ERROR (memcheck hA_2) ;;
     CHECK_HIP_ERROR (memcheck hA_gold) ;;
     CHECK_HIP_ERROR (memcheck hx) ;;
     CHECK_HIP_ERROR (memcheck hy) ;;
     CHECK_HIP_ERROR (memcheck halpha) ;;
     store halpha 0 h_alpha ;;
     (* allocate memory on device *)
     device_vector dA_1 size_A ;;
     device_vector dA_2 size_A ;;
     device_vector dx size_x ;;
     device_vector dy size_y ;;
     device_vector d_alpha 1 ;;
     CHECK_DEVICE_ALLOCATION (memcheck dA_1) ;;
     CHECK_DEVICE_ALLOCATION (memcheck dA_2) ;;
     CHECK_DEVICE_ALLOCATION (memcheck dx) ;;
     CHECK_DEVICE_ALLOCATION (memcheck dy) ;;
     CHECK_DEVICE_ALLOCATION (memcheck d_alpha) ;;
     (* double gpu_time_used, cpu_time_used, rocblas_error_1, rocblas_error_2;
        declared without initialiser *)
     let cpu_time_used : option double := None in
     let rocblas_error_1 : option double := None in
     let rocblas_error_2 : option double := None in
     (* Initial Data on CPU *)
     rocblas_init hA_1 true ;;
     rocblas_init hx false ;;
     rocblas_init hy false ;;
     assign hA_gold hA_1 ;;
     assign hA_2 hA_1 ;;
     (* copy data from CPU to device *)
     CHECK_HIP_ERROR (transfer_from dA_1 hA_1) ;;
     CHECK_HIP_ERROR (transfer_from dA_2 hA_1) ;;
     CHECK_HIP_ERROR (transfer_from dx hx) ;;
     CHECK_HIP_ERROR (transfer_from dy hy) ;;
     CHECK_HIP_ERROR (transfer_from d_alpha halpha) ;;
     locals <-
       (if unit_check arg || norm_check arg then
          CHECK_ROCBLAS_ERROR
            (rocblas_set_pointer_mode (handle_of handle) rocblas_pointer_mode_host) ;;
          CHECK_ROCBLAS_ERROR
            (rocblas_spr2_fn (Some (handle_of handle)) uplo N
               (alpha_addr h_alpha) (Some dx) incx (Some dy) incy (Some dA_1)) ;;
          CHECK_ROCBLAS_ERROR
            (rocblas_set_pointer_mode (handle_of handle) rocblas_pointer_mode_device) ;;
          CHECK_ROCBLAS_ERROR
            (rocblas_spr2_fn (Some (handle_of handle)) uplo N
               (alpha_vec d_alpha) (Some dx) incx (Some dy) incy (Some dA_2)) ;;
          (* CPU BLAS *)
          t0 <- get_time_us_no_sync ;;
          cblas_spr2 uplo N h_alpha hx incx hy incy hA_gold ;;
          t1 <- get_time_us_no_sync ;;
          let cpu_time_used := Some (double_sub t1 t0) in
          (* copy output from device to CPU *)
          CHECK_HIP_ERROR (transfer_from hA_1 dA_1) ;;
          CHECK_HIP_ERROR (transfer_from hA_2 dA_2) ;;
          (if unit_check arg then
             unit_check_general 1 size_A 1 hA_gold hA_1 ;;
             unit_check_general 1 size_A 1 hA_gold hA_2
           else ret tt) ;;
          errors <-
            (if norm_check arg then
               e1 <- norm_check_general "F" 1 size_A 1 hA_gold hA_1 ;;
               e2 <- norm_check_general "F" 1 size_A 1 hA_gold hA_2 ;;
               ret (Some e1, Some e2)
             else ret (rocblas_error_1, rocblas_error_2)) ;;
          ret (cpu_time_used, fst errors, snd errors)
        else ret (cpu_time_used, rocblas_error_1, rocblas_error_2)) ;;
     let '(cpu_time_used, rocblas_error_1, rocblas_error_2) := locals in
     (if timing arg then
        let number_cold_calls := cold_iters arg in
        let number_hot_calls := iters arg in
        CHECK_ROCBLAS_ERROR
          (rocblas_set_pointer_mode (handle_of handle) rocblas_pointer_mode_host) ;;
        for_loop (Z.to_nat number_cold_calls)
          (rocblas_spr2_fn (Some (handle_of handle)) uplo N
             (alpha_addr h_alpha) (Some dx) incx (Some dy) incy (Some dA_1) ;;
           ret tt) ;;
        CHECK_ROCBLAS_ERROR (rocblas_get_stream (handle_of handle)) ;;
        let stream := stream_of (handle_of handle) in
        t_start <- get_time_us_sync stream ;;
        for_loop (Z.to_nat number_hot_calls)
          (rocblas_spr2_fn (Some (handle_of handle)) uplo N
             (alpha_addr h_alpha) (Some dx) incx (Some dy) incy (Some dA_1) ;;
           ret tt) ;;
        t_end <- get_time_us_sync stream ;;
        let gpu_time_used := double_sub t_end t_start in
        log_args gpu_time_used (spr2_gflop_count X N) (spr2_gbyte_count X N)
          cpu_time_used rocblas_error_1 rocblas_error_2
      else ret tt) ;;
     scope_exit [d_alpha; dy; dx; dA_2; dA_1;
                 halpha; hy; hx; hA_gold; hA_2; hA_1]) ;;
  local_handle_dtor handle.

(** ** Running a test function *)

Definition initial_world (seed : RNG) : world :=
  {| mem := fun _ => []; rng := seed; ticks := O; pmode := None |}.

Definition trace {A} (p : M A) (seed : RNG) : list event :=
  fst (fst (p (initial_world seed))).

Definition result {A} (p : M A) (seed : RNG) : outcome A :=
  snd (p (initial_world seed)).

End Program.

(* ================================================================== *)
(** * [rocblas_print_helper::print_value] for [double]
      (utility.hpp, lines 96-113) *)

Module PrintHelper.
Section PrintValue.

(** The characters the conversion [%.17g] produces for a double, before
    [snprintf] applies its size limit (C library). *)
Variable format_17g : double -> string.

Definition isnan (x : double) : bool :=
  match x with S754_nan => true | _ => false end.

Definition isinf (x : double) : bool :=
  match x with S754_infinity _ => true | _ => false end.

(** [x < 0] *)
Definition lt_zero (x : double) : bool := SFltb x (S754_zero false).

(** [snprintf(s, n, "%.17g", x)] stores at most [n - 1] characters and the
    terminator. *)
Definition snprintf_17g (n : nat) (x : double) : string :=
  substring 0 (n - 1) (format_17g x).

Fixpoint char_in (c : ascii) (set : string) : bool :=
  match set with
  | EmptyString => false
  | String d rest => if Ascii.eqb c d then true else char_in c rest
  end.

(** [strcspn(s, reject)]: length of the initial segment of [s] free of the
    characters of [reject]. *)
Fixpoint strcspn (s reject : string) : nat :=
  match s with
  | EmptyString => O
  | String c rest => if char_in c reject then O else S (strcspn rest reject)
  end.

(** [strcpy(s + pos, src)]: [s] keeps its first [pos] characters and
    continues with [src]. *)
Definition strcpy_at (s : string) (pos : nat) (src : string) : string :=
  (substring 0 pos s ++ src)%string.

Definition sizeof_s : nat := 32.

(** The characters [print_value(os, x)] sends to [os]. *)
Definition print_value (x : double) : string :=
  if isnan x then ".nan"%string
  else if isinf x then (if lt_zero x then "-.inf" else ".inf")%string
  else
    let s := snprintf_17g (sizeof_s - 2) x in
    (* If no decimal point or exponent, append .0 *)
    let end_ := strcspn s ".eE" in
    match get end_ s with
    | None => strcpy_at s end_ ".0"
    | Some _ => s
    end.

End PrintValue.

(** What the comment in the source means by a decimal point or an
    exponent: one of the characters [.], [e], [E] occurs. *)
Fixpoint has_point_or_exponent (s : string) : bool :=
  match s with
  | EmptyString => false
  | String c rest =>
      (Ascii.eqb c "." || Ascii.eqb c "e" || Ascii.eqb c "E")%char
      || has_point_or_exponent rest
  end.

Definition is_finite (x : double) : bool :=
  match x with
  | S754_zero _ | S754_finite _ _ _ => true
  | _ => false
  end.

End PrintHelper.

(* ================================================================== *)
(** * Vocabulary for the statements *)

Section Conditions.
Context {T rocblas_handle hipStream_t RNG : Type}.
Variable X : externals T rocblas_handle hipStream_t RNG.

Local Abbreviation event := (@event T rocblas_handle hipStream_t).
Local Abbreviation spr2_call := (@spr2_call T rocblas_handle).

Definition is_spr2 (e : event) : bool :=
  match e with ev_spr2 _ => true | _ => false end.

Definition is_time_sync (e : event) : bool :=
  match e with ev_time_sync _ => true | _ => false end.

Definition is_alloc (e : event) : bool :=
  match e with ev_alloc _ _ => true | _ => false end.

(** A vendor call made with the wrapper's handle, the sizes of [arg] and
    no null pointer. *)
Definition regular_call (arg : Arguments) (c : spr2_call) : Prop :=
  c_handle c = Some (rocblas_create_handle X) /\
  c_uplo c = char2rocblas_fill X (uplo arg) /\
  c_N c = arg_N arg /\ c_incx c = incx arg /\ c_incy c = incy arg /\
  c_alpha c <> scalar_null /\
  c_x c <> vec_null /\ c_y c <> vec_null /\ c_A c <> vec_null.

(** The environment lets a run of [testing_spr2] on [arg] pass every check
    it wraps in [CHECK_HIP_ERROR], [CHECK_DEVICE_ALLOCATION] or
    [CHECK_ROCBLAS_ERROR]: allocations and copies succeed, the handle
    accepts pointer-mode changes and stream queries, and, when a
    correctness check is requested, the vendor accepts regular calls. *)
Record cooperative (arg : Arguments) : Prop := {
  coop_memcheck : forall b, memcheck_result X b = hipSuccess;
  coop_transfer : forall dst src, transfer_result X dst src = hipSuccess;
  coop_pointer_mode : forall h m,
    rocblas_set_pointer_mode_status X h m = rocblas_status_success;
  coop_stream : forall h,
    fst (rocblas_get_stream_result X h) = rocblas_status_success;
  coop_spr2 : unit_check arg || norm_check arg = true ->
    forall c, regular_call arg c ->
    rocblas_spr2_status X c = rocblas_status_success
}.

(** The vendor answers the malformed calls of [testing_spr2_bad_arg] with
    the status codes the test expects: a null handle, then a full fill
    mode, then (sizes being valid) a null vector. *)
Record rejects_as_documented : Prop := {
  doc_handle : forall c, c_handle c = None ->
    rocblas_spr2_status X c = rocblas_status_invalid_handle;
  doc_value : forall c, c_handle c <> None -> c_uplo c = rocblas_fill_full ->
    rocblas_spr2_status X c = rocblas_status_invalid_value;
  doc_pointer : forall c, c_handle c <> None ->
    c_uplo c <> rocblas_fill_full ->
    0 < c_N c -> c_incx c <> 0 -> c_incy c <> 0 ->
    c_x c = vec_null \/ c_y c = vec_null \/ c_A c = vec_null ->
    rocblas_spr2_status X c = rocblas_status_invalid_pointer
}.

End Conditions.

(* ================================================================== *)
(** * A concrete environment

    Integer elements, a vendor that validates its arguments in the order
    handle, fill mode, sizes, pointers and otherwise leaves [A] as it is,
    and checks that are all fatal.  Used to run the model on concrete
    inputs. *)

Definition sample_status (c : @spr2_call Z nat) : rocblas_status :=
  match c_handle c with
  | None => rocblas_status_invalid_handle
  | Some _ =>
      match c_uplo c with
      | rocblas_fill_full => rocblas_status_invalid_value
      | _ =>
          if (c_N c <? 0) || (c_incx c =? 0) || (c_incy c =? 0)
          then rocblas_status_invalid_size
          else
            match c_alpha c, c_x c, c_y c, c_A c with
            | scalar_null, _, _, _ => rocblas_status_invalid_pointer
            | _, vec_null, _, _ => rocblas_status_invalid_pointer
            | _, _, vec_null, _ => rocblas_status_invalid_pointer
            | _, _, _, vec_null => rocblas_status_invalid_pointer
            | _, _, _, _ => rocblas_status_success
            end
      end
  end.

Definition sample_result (c : @spr2_call Z nat) : list Z :=
  match c_A c with
  | vec_null => []
  | vec_dev _ contents => contents
  end.

Definition sample_externals : externals Z nat nat nat := {|
  get_alpha := fun _ => 2;
  char2rocblas_fill := fun c =>
    if Ascii.eqb c "L" then rocblas_fill_lower else rocblas_fill_upper;
  T_of_double := fun _ => 1;
  rocblas_create_handle := 7%nat;
  rocblas_spr2_status := sample_status;
  rocblas_spr2_result := sample_result;
  rocblas_set_pointer_mode_status := fun _ _ => rocblas_status_success;
  rocblas_get_stream_result := fun _ => (rocblas_status_success, 3%nat);
  fresh := fun _ k => Z.of_nat k;
  memcheck_result := fun _ => hipSuccess;
  transfer_result := fun _ _ => hipSuccess;
  rocblas_init_result := fun g l _ => (S g, map (Z.add 1) l);
  cblas_spr2_result := fun _ _ _ _ _ _ _ A => A;
  norm_check_general_result := fun _ _ _ _ _ _ => S754_zero false;
  time_no_sync := fun _ => S754_zero false;
  time_sync := fun _ _ => S754_zero false;
  spr2_gflop_count := fun _ => S754_zero false;
  spr2_gbyte_count := fun _ => S754_zero false;
  fatal := fun _ => true
|}.

Definition sample_arguments (check_unit check_norm time : bool)
    (n ix iy : Z) : Arguments := {|
  fortran := false;
  arg_N := n;
  incx := ix;
  incy := iy;
  uplo := "U";
  alpha := double_0_6;
  unit_check := check_unit;
  norm_check := check_norm;
  timing := time;
  cold_iters := 2;
  iters := 3
|}.

(* ================================================================== *)
(** * Further code of utility.hpp *)

(** ** [print_value] for [rocblas_complex_num<double>] (lines 115-124)

    [std::real] and [std::imag] of a [rocblas_complex_num<double>] are
    doubles, so both parts go through the floating-point overload.  (For
    [rocblas_complex_num<float>] the parts are floats and overload
    resolution picks the default template; that instance is not modelled
    here.) *)

Definition print_value_complex (format_17g : double -> string)
    (re im : double) : string :=
  ("'(" ++ PrintHelper.print_value format_17g re ++ ","
        ++ PrintHelper.print_value format_17g im ++ ")'")%string.

(** Number of occurrences of a character in a string. *)
Fixpoint count_char (c : ascii) (s : string) : nat :=
  match s with
  | EmptyString => O
  | String d rest =>
      ((if Ascii.eqb c d then 1 else 0) + count_char c rest)%nat
  end.

(** ** [rocblas_print_matrix] (lines 127-155) *)

(** [for(k = 0; k < n; k++)]: the values [k] takes. *)
Definition loop_range (n : Z) : list Z := map Z.of_nat (seq 0 (Z.to_nat n)).

Section PrintMatrix.
Context {T : Type}.

(** [v[k]] on a vector or through a pointer to [length v] elements: no
    bounds check in the source; [None] marks a read outside the storage. *)
Definition element_at (v : list T) (k : Z) : option T :=
  if (0 <=? k) && (k <? Z.of_nat (List.length v))
  then nth_error v (Z.to_nat k) else None.

(** *** The comparison printer (lines 129-140)

    [j + i * lda] on [size_t] operands. *)
Definition size_add (a b : Z) : Z := (a + b) mod 2 ^ 64.

Definition compare_index (i j lda : Z) : Z :=
  size_add j (CInt.size_mul i lda).

(** One output line: the two numbers printed after [col] and [row], and the
    two elements read. *)
Record compare_line : Type := {
  line_col : Z;
  line_row : Z;
  line_cpu : option T;
  line_gpu : option T
}.

(** [rocblas_print_matrix(CPU_result, GPU_result, m, n, lda)]: the lines
    written to [rocblas_cout], in order. *)
Definition rocblas_print_matrix_compare (CPU_result GPU_result : list T)
    (m n lda : Z) : list compare_line :=
  flat_map
    (fun i =>
       map (fun j =>
              {| line_col := i; line_row := j;
                 line_cpu := element_at CPU_result (compare_index i j lda);
                 line_gpu := element_at GPU_result (compare_index i j lda) |})
           (loop_range n))
    (loop_range m).

(** The text of a line whose two reads were inside the vectors; [show_size]
    and [show] stand for the stream's formatting of a [size_t] and of a
    [T]. *)
Definition compare_line_text (show_size : Z -> string) (show : T -> string)
    (l : compare_line) : option string :=
  match line_cpu l, line_gpu l with
  | Some c, Some g =>
      Some ("matrix  col " ++ show_size (line_col l)
            ++ ", row " ++ show_size (line_row l)
            ++ ", CPU result=" ++ show c
            ++ ", GPU result=" ++ show g
            ++ String (ascii_of_nat 10) EmptyString)%string
  | _, _ => None
  end.

(** *** The matrix printer (lines 142-155)

    [i + j * lda] on [rocblas_int] operands. *)
Definition int_mul (a b : Z) : Z := CInt.wrap_int (a * b).

Definition matrix_index (i j lda : Z) : Z :=
  CInt.int_add i (int_mul j lda).

(** What the function writes: text through [printf] (standard output), and
    elements handed to [rocblas_print_helper::print_value] on
    [rocblas_cout]. *)
Inductive chunk : Type :=
| to_stdout (text : string)
| to_rocblas_cout (element : option T).

Definition newline : string := String (ascii_of_nat 10) EmptyString.

(** [rocblas_print_matrix(name, A, m, n, lda)] *)
Definition rocblas_print_matrix (name : string) (A : list T)
    (m n lda : Z) : list chunk :=
  to_stdout ("---------- " ++ name ++ " ----------" ++ newline)%string
  :: flat_map
       (fun i =>
          flat_map
            (fun j =>
               [to_rocblas_cout (element_at A (matrix_index i j lda));
                to_stdout " "%string])
            (loop_range n)
          ++ [to_stdout newline])
       (loop_range m).

(** The two streams taken apart. *)
Definition stdout_text (out : list chunk) : string :=
  fold_right
    (fun c acc => match c with to_stdout s => (s ++ acc)%string | _ => acc end)
    EmptyString out.

Definition cout_elements (out : list chunk) : list (option T) :=
  flat_map (fun c => match c with to_rocblas_cout v => [v] | _ => [] end) out.

End PrintMatrix.

(** [k] copies of a text, one after the other. *)
Fixpoint repeat_text (k : nat) (s : string) : string :=
  match k with
  | O => EmptyString
  | S k' => (s ++ repeat_text k' s)%string
  end.

(* ================================================================== *)
(** * Vocabulary for properties of every run *)

Section RunConditions.
Context {T rocblas_handle hipStream_t RNG : Type}.
Variable X : externals T rocblas_handle hipStream_t RNG.

Local Abbreviation event := (@event T rocblas_handle hipStream_t).
Local Abbreviation M := (M T rocblas_handle hipStream_t RNG).

(** Every event of every run of [m], from whatever state, satisfies [P]. *)
Definition always {A} (P : event -> Prop) (m : M A) : Prop :=
  forall w, Forall P (fst (fst (m w))).

(** No run of [m] makes more than [k] vendor calls. *)
Definition at_most {A} (k : nat) (m : M A) : Prop :=
  forall w, (List.length (filter is_spr2 (fst (fst (m w)))) <= k)%nat.

(** A vendor or reference call that is made on the wrapper's handle with
    the binding, fill mode, size and increments of [arg] (and, for the
    reference, the scalar of [arg]). *)
Definition uses_arguments (arg : Arguments) (e : event) : Prop :=
  match e with
  | ev_spr2 c =>
      c_fortran c = fortran arg /\
      c_handle c = Some (rocblas_create_handle X) /\
      c_uplo c = char2rocblas_fill X (uplo arg) /\
      c_N c = arg_N arg /\ c_incx c = incx arg /\ c_incy c = incy arg
  | ev_cblas_spr2 ul n al _ ix _ iy _ =>
      ul = char2rocblas_fill X (uplo arg) /\ n = arg_N arg /\
      al = get_alpha X arg /\ ix = incx arg /\ iy = incy arg
  | _ => True
  end.

(** The element count each local vector of [testing_spr2] is declared
    with. *)
Definition declared_size (arg : Arguments) (b : buffer) : Z :=
  match b with
  | hA_1 | hA_2 | hA_gold | dA_1 | dA_2 => size_A_of (arg_N arg)
  | hx | dx => size_vec_of (arg_N arg) (abs_inc (incx arg))
  | hy | dy => size_vec_of (arg_N arg) (abs_inc (incy arg))
  | halpha | d_alpha => 1
  end.

(** An allocation of the declared size; a copy between two vectors of the
    same declared size. *)
Definition sizes_agree (arg : Arguments) (e : event) : Prop :=
  match e with
  | ev_alloc b n => n = declared_size arg b
  | ev_assign dst src | ev_transfer dst src _ =>
      declared_size arg dst = declared_size arg src
  | _ => True
  end.

(** Events of setting up and tearing down: the handle, vectors, their
    initialisation and copies, and the checks on those. *)
Definition is_setup (e : event) : bool :=
  match e with
  | ev_handle _ | ev_alloc _ _ | ev_free _ | ev_memcheck _ | ev_store _ _ _
  | ev_init _ _ | ev_assign _ _ | ev_transfer _ _ _ | ev_check_hip _ _ => true
  | _ => false
  end.

Definition is_device (b : buffer) : bool :=
  match b with
  | dA_1 | dA_2 | dx | dy | d_alpha => true
  | _ => false
  end.

(** What [testing_spr2_bad_arg] may do: handle, device vectors and their
    checks, and vendor calls with [N = 100], unit increments, the host
    scalar [0.6] and a pointer mode the harness never set. *)
Definition bad_arg_event (arg : Arguments) (e : event) : Prop :=
  match e with
  | ev_handle _ | ev_check_hip _ _ => True
  | ev_alloc b _ | ev_free b | ev_memcheck b => is_device b = true
  | ev_spr2 c =>
      c_fortran c = fortran arg /\ c_N c = 100 /\
      c_incx c = 1 /\ c_incy c = 1 /\
      c_alpha c = scalar_host (T_of_double X double_0_6)
  | ev_expect m _ expected =>
      m = macro_EXPECT_ROCBLAS_STATUS /\
      expected <> rocblas_status_success
  | _ => False
  end.

(** The environment [X] with another status function for the vendor
    call. *)
Definition with_status
    (f : @spr2_call T rocblas_handle -> rocblas_status) :
    externals T rocblas_handle hipStream_t RNG :=
  {| get_alpha := get_alpha X;
     char2rocblas_fill := char2rocblas_fill X;
     T_of_double := T_of_double X;
     rocblas_create_handle := rocblas_create_handle X;
     rocblas_spr2_status := f;
     rocblas_spr2_result := rocblas_spr2_result X;
     rocblas_set_pointer_mode_status := rocblas_set_pointer_mode_status X;
     rocblas_get_stream_result := rocblas_get_stream_result X;
     fresh := fresh X;
     memcheck_result := memcheck_result X;
     transfer_result := transfer_result X;
     rocblas_init_result := rocblas_init_result X;
     cblas_spr2_result := cblas_spr2_result X;
     norm_check_general_result := norm_check_general_result X;
     time_no_sync := time_no_sync X;
     time_sync := time_sync X;
     spr2_gflop_count := spr2_gflop_count X;
     spr2_gbyte_count := spr2_gbyte_count X;
     fatal := fatal X |}.

End RunConditions.

Section RunShapes.
Context {T rocblas_handle hipStream_t RNG : Type}.
Variable X : externals T rocblas_handle hipStream_t RNG.

Local Abbreviation event := (@event T rocblas_handle hipStream_t).

(** A vendor call in host pointer mode that takes [alpha] from the host
    variable [h_alpha] and works on [dx], [dy] and [dA_1]. *)
Definition host_mode_call (arg : Arguments) (e : event) : Prop :=
  match e with
  | ev_spr2 c =>
      c_mode c = Some rocblas_pointer_mode_host /\
      c_alpha c = scalar_host (get_alpha X arg) /\
      (exists x, c_x c = vec_dev dx x) /\
      (exists y, c_y c = vec_dev dy y) /\
      (exists A, c_A c = vec_dev dA_1 A)
  | _ => True
  end.

(** The vectors an event allocates, and those it releases. *)
Definition allocated (e : event) : list buffer :=
  match e with ev_alloc b _ => [b] | _ => [] end.

Definition freed (e : event) : list buffer :=
  match e with ev_free b => [b] | _ => [] end.

End RunShapes.

(* ================================================================== *)
(* ================================================================== *)
(** * Properties *)

(** ** Machine integers and buffer sizes *)

Lemma wrap_int_id z : CInt.in_int z -> CInt.wrap_int z = z.
Proof.
  unfold CInt.in_int, CInt.wrap_int, CInt.int_min, CInt.int_max. intros H.
  rewrite Z.mod_small by lia. lia.
Qed.

Lemma to_size_t_id z : 0 <= z < 2 ^ 64 -> CInt.to_size_t z = z.
Proof. unfold CInt.to_size_t. intros H. now apply Z.mod_small. Qed.

(** Below [INT_MAX] the packed size is the exact triangular number. *)
Lemma size_A_of_exact N :
  0 <= N < CInt.int_max -> size_A_of N = N * (N + 1) / 2.
Proof.
  unfold CInt.int_max. intros H.
  unfold size_A_of, CInt.int_add, CInt.size_div, CInt.size_mul.
  rewrite wrap_int_id
    by (unfold CInt.in_int, CInt.int_min, CInt.int_max; lia).
  rewrite !to_size_t_id by lia.
  rewrite Z.mod_small; [reflexivity|]. nia.
Qed.

(** Away from [INT_MIN] the ternary computes the absolute value. *)
Lemma abs_inc_exact inc :
  CInt.int_min < inc <= CInt.int_max -> abs_inc inc = Z.abs inc.
Proof.
  unfold CInt.int_min, CInt.int_max, abs_inc, CInt.int_neg. intros H.
  destruct (0 <=? inc) eqn:E.
  - apply Z.leb_le in E. rewrite to_size_t_id by lia. lia.
  - apply Z.leb_gt in E.
    rewrite wrap_int_id
      by (unfold CInt.in_int, CInt.int_min, CInt.int_max; lia).
    rewrite to_size_t_id by lia. lia.
Qed.

Lemma size_vec_of_exact N inc :
  0 <= N <= CInt.int_max -> CInt.int_min < inc <= CInt.int_max ->
  size_vec_of N (abs_inc inc) = N * Z.abs inc.
Proof.
  intros HN Hi. unfold size_vec_of, CInt.size_mul.
  rewrite abs_inc_exact by assumption.
  unfold CInt.int_min, CInt.int_max in *.
  rewrite to_size_t_id by lia.
  apply Z.mod_small. nia.
Qed.

(** A negative increment above [INT_MIN] gets the size of its positive
    counterpart. *)
Lemma size_vec_of_negated N inc :
  0 <= N <= CInt.int_max -> CInt.int_min < inc <= CInt.int_max ->
  size_vec_of N (abs_inc (- inc)) = size_vec_of N (abs_inc inc).
Proof.
  intros HN Hi.
  rewrite !size_vec_of_exact; unfold CInt.int_min, CInt.int_max in *; lia.
Qed.

(** At [N = INT_MAX] the sub-expression [N + 1] is evaluated in [int] and
    overflows, so [size_t(N) * (N + 1) / 2] is not [N(N+1)/2]. *)
Lemma size_A_of_int_max :
  size_A_of CInt.int_max = 2 ^ 63 - 2 ^ 61 + 2 ^ 30 /\
  CInt.int_max * (CInt.int_max + 1) / 2 = 2 ^ 61 - 2 ^ 30 /\
  size_A_of CInt.int_max <> CInt.int_max * (CInt.int_max + 1) / 2.
Proof.
  split; [vm_compute; reflexivity|].
  split; [vm_compute; reflexivity|].
  intros H. vm_compute in H. discriminate H.
Qed.

(** At [incx = INT_MIN] the negation [-incx] overflows [int]; the value
    converted to [size_t] is [2^64 - 2^31]. *)
Lemma size_vec_of_int_min :
  abs_inc CInt.int_min = 2 ^ 64 - 2 ^ 31 /\
  size_vec_of 1 (abs_inc CInt.int_min) = 2 ^ 64 - 2 ^ 31 /\
  size_vec_of 1 (abs_inc CInt.int_min) <> 1 * Z.abs CInt.int_min.
Proof.
  split; [vm_compute; reflexivity|].
  split; [vm_compute; reflexivity|].
  intros H. vm_compute in H. discriminate H.
Qed.

(** ** The handle wrapper *)

Section LocalHandleFacts.
Context {rocblas_handle : Type}.
Variable created : nat -> rocblas_handle.
Import LocalHandle.

Local Abbreviation object := (@rocblas_local_handle rocblas_handle).
Local Abbreviation call := (@handle_call rocblas_handle).

Lemma put_same (i : nat) (v : object) (l : list object) :
  nth_error l i = Some v -> put i v l = l.
Proof.
  revert i. induction l as [|a l IH]; intros [|i] H; try discriminate.
  - cbn in H. injection H as ->. reflexivity.
  - unfold put in *. cbn [firstn skipn app]. cbn in H.
    f_equal. apply IH. exact H.
Qed.

Lemma run_without_copies (ss : list statement) (n : nat)
    (cs : list call) (st : locals) :
  forallb copies_nothing ss = true ->
  run created ss {| objects := fresh_objects created n; creations := n |}
    = Some (cs, st) ->
  cs = map (fun k => call_create_handle (created k))
           (seq n (count_declare ss)) /\
  st = {| objects := fresh_objects created (n + count_declare ss)%nat;
          creations := (n + count_declare ss)%nat |}.
Proof.
  revert n cs st.
  induction ss as [|s ss IH]; intros n cs st Hall Hrun.
  - cbn in Hrun. injection Hrun as <- <-. unfold count_declare. cbn.
    rewrite Nat.add_0_r. split; reflexivity.
  - cbn [forallb] in Hall. apply andb_true_iff in Hall.
    destruct Hall as [Hs Hall].
    cbn [run] in Hrun.
    destruct s as [|src|dst src|obj|obj]; try discriminate Hs.
    + cbn [step ctor creations objects] in Hrun.
      replace (fresh_objects created n ++ [{| handle := created n |}])
        with (fresh_objects created (S n)) in Hrun
        by (unfold fresh_objects; rewrite seq_S, map_app; reflexivity).
      destruct (run created ss _) as [[cs' st']|] eqn:E; [|discriminate].
      injection Hrun as <- <-.
      destruct (IH (S n) cs' st' Hall E) as [-> ->].
      unfold count_declare. cbn [filter List.length seq map app].
      fold (count_declare ss).
      rewrite Nat.add_succ_r. split; reflexivity.
    + cbn [step objects creations] in Hrun.
      destruct (nth_error (fresh_objects created n) obj) as [o|] eqn:Eo;
        [|discriminate].
      cbn [to_handle] in Hrun. rewrite (put_same _ _ _ Eo) in Hrun.
      destruct (run created ss _) as [[cs' st']|] eqn:E; [|discriminate].
      injection Hrun as <- <-.
      destruct (IH n cs' st' Hall E) as [-> ->].
      split; reflexivity.
    + cbn [step objects creations] in Hrun.
      destruct (nth_error (fresh_objects created n) obj) as [o|] eqn:Eo;
        [|discriminate].
      cbn [to_const_handle] in Hrun. rewrite (put_same _ _ _ Eo) in Hrun.
      destruct (run created ss _) as [[cs' st']|] eqn:E; [|discriminate].
      injection Hrun as <- <-.
      destruct (IH n cs' st' Hall E) as [-> ->].
      split; reflexivity.
Qed.

(** A block whose objects are only declared and converted, which is how
    the test functions use the wrapper: the vendor sees one creation per
    object and then, at the closing brace, one destruction per handle
    created, in reverse order. *)
Lemma block_without_copies (ss : list statement) (cs : list call) :
  forallb copies_nothing ss = true ->
  block created ss = Some cs ->
  cs = map (fun k => call_create_handle (created k))
           (seq 0 (count_declare ss)) ++
       map (fun k => call_destroy_handle (created k))
           (rev (seq 0 (count_declare ss))).
Proof.
  intros Hall Hb. unfold block in Hb.
  destruct (run created ss _) as [[cs' st']|] eqn:E; [|discriminate].
  injection Hb as <-.
  destruct (run_without_copies ss 0%nat cs' st' Hall E) as [-> ->].
  cbn [objects Nat.add]. f_equal.
  unfold fresh_objects. rewrite <- map_rev.
  induction (rev (seq 0 (count_declare ss))) as [|k l IH];
    [reflexivity|].
  cbn [map flat_map dtor handle app]. now rewrite IH.
Qed.

(** C5.  The class can be copied, and a copy breaks the pairing of
    creation and destruction.  In [{ rocblas_local_handle a;
    rocblas_local_handle b = a; }] the object [b] is constructed without a
    [rocblas_create_handle], and the one handle created is passed to
    [rocblas_destroy_handle] twice: one creation, two destructions.  In
    [{ rocblas_local_handle a;
    rocblas_local_handle b; b = a; }] the assignment replaces the handle
    of [b]: the handle created for [b] is never destroyed and the one
    created for [a] is destroyed twice. *)
Theorem local_handle_copy_destroys_twice :
  block created [declare; declare_copy 0%nat]
    = Some [call_create_handle (created 0%nat);
            call_destroy_handle (created 0%nat);
            call_destroy_handle (created 0%nat)] /\
  block created [declare; declare; assign_copy 1%nat 0%nat]
    = Some [call_create_handle (created 0%nat);
            call_create_handle (created 1%nat);
            call_destroy_handle (created 0%nat);
            call_destroy_handle (created 0%nat)] /\
  option_map (fun cs => (List.length (filter is_create cs),
                         List.length (filter is_destroy cs)))
    (block created [declare; declare_copy 0%nat])
    = Some (1%nat, 2%nat).
Proof. repeat split. Qed.

End LocalHandleFacts.

(** ** [print_value] *)

Section PrintValueFacts.
Import PrintHelper.
Local Open Scope string_scope.

Lemma substring_whole (s : string) (n : nat) :
  (String.length s <= n)%nat -> substring 0 n s = s.
Proof.
  revert n. induction s as [|c s IH]; intros n H.
  - destruct n; reflexivity.
  - destruct n as [|n]; cbn [String.length] in H; [lia|].
    cbn [substring]. rewrite IH by lia. reflexivity.
Qed.

Lemma char_in_reject (c : ascii) :
  char_in c ".eE" = (Ascii.eqb c "." || Ascii.eqb c "e" || Ascii.eqb c "E")%bool.
Proof.
  cbn [char_in].
  destruct (Ascii.eqb c "."), (Ascii.eqb c "e"), (Ascii.eqb c "E"); reflexivity.
Qed.

(** Without any of [.], [e], [E] the scan of [strcspn] runs to the
    terminator. *)
Lemma strcspn_no_hit (s : string) :
  has_point_or_exponent s = false ->
  strcspn s ".eE" = String.length s /\ get (String.length s) s = None.
Proof.
  induction s as [|c s IH]; intros H; [split; reflexivity|].
  cbn [has_point_or_exponent] in H. apply orb_false_iff in H.
  destruct H as [Hc Hs]. specialize (IH Hs). destruct IH as [IH1 IH2].
  cbn [strcspn String.length get]. rewrite char_in_reject, Hc, IH1.
  split; [reflexivity | exact IH2].
Qed.

(** Otherwise it stops on a character of the string. *)
Lemma strcspn_hit (s : string) :
  has_point_or_exponent s = true ->
  exists c, get (strcspn s ".eE") s = Some c.
Proof.
  induction s as [|c s IH]; intros H; [discriminate H|].
  cbn [has_point_or_exponent] in H. cbn [strcspn].
  rewrite char_in_reject.
  destruct (Ascii.eqb c "." || Ascii.eqb c "e" || Ascii.eqb c "E")%bool eqn:E.
  - exists c. reflexivity.
  - cbn [orb] in H. cbn [get]. exact (IH H).
Qed.

Lemma has_point_or_exponent_app (s t : string) :
  has_point_or_exponent (s ++ t)
  = (has_point_or_exponent s || has_point_or_exponent t)%bool.
Proof.
  induction s as [|c s IH]; [reflexivity|].
  cbn [append has_point_or_exponent]. rewrite IH. now rewrite orb_assoc.
Qed.

(** What the finite branch prints, given that the conversion fits the
    size limit handed to [snprintf]. *)
Lemma print_value_finite (format_17g : double -> string) (x : double) :
  is_finite x = true ->
  (String.length (format_17g x) <= 29)%nat ->
  print_value format_17g x =
    format_17g x ++
    (if has_point_or_exponent (format_17g x) then "" else ".0").
Proof.
  intros Hfin Hlen.
  assert (E : print_value format_17g x =
              let s := format_17g x in
              match get (strcspn s ".eE") s with
              | None => strcpy_at s (strcspn s ".eE") ".0"
              | Some _ => s
              end).
  { unfold print_value, snprintf_17g, sizeof_s.
    destruct x; try discriminate Hfin; cbn [isnan isinf Nat.sub];
      now rewrite substring_whole by exact Hlen. }
  rewrite E. cbv zeta.
  destruct (has_point_or_exponent (format_17g x)) eqn:Hp.
  - destruct (strcspn_hit _ Hp) as [c ->].
    clear. induction (format_17g x) as [|c s IH]; [reflexivity|].
    cbn [append]. now rewrite <- IH.
  - destruct (strcspn_no_hit _ Hp) as [-> ->].
    unfold strcpy_at. now rewrite substring_whole by lia.
Qed.

(** C9.  [print_value] sends [.nan] for a NaN, [.inf] or [-.inf] for an
    infinity, and for a finite [x] the [%.17g] conversion of [x], followed
    by [.0] exactly when that conversion contains none of [.], [e], [E];
    so whatever is printed for a finite value contains a decimal point or
    an exponent.  The conversion is the C library's; it is assumed to fit
    the 29 characters [snprintf] is allowed to store (for a binary64 value
    it has at most 24). *)
Theorem print_value_spec (format_17g : double -> string) (x : double) :
  (is_finite x = true -> (String.length (format_17g x) <= 29)%nat) ->
  print_value format_17g x =
    match x with
    | S754_nan => ".nan"
    | S754_infinity false => ".inf"
    | S754_infinity true => "-.inf"
    | S754_zero _ | S754_finite _ _ _ =>
        format_17g x ++
        (if has_point_or_exponent (format_17g x) then "" else ".0")
    end
  /\ (is_finite x = true ->
      has_point_or_exponent (print_value format_17g x) = true).
Proof.
  intros Hlen. split.
  - destruct x as [s|s| |s m e].
    + apply print_value_finite; [reflexivity | now apply Hlen].
    + destruct s; reflexivity.
    + reflexivity.
    + apply print_value_finite; [reflexivity | now apply Hlen].
  - intros Hfin. rewrite print_value_finite by auto.
    rewrite has_point_or_exponent_app.
    destruct (has_point_or_exponent (format_17g x)); reflexivity.
Qed.

(** The theorem at [x = 3.0] with a conversion that prints [3], and at
    [x = 0.6] with [0.59999999999999998]. *)
Lemma print_value_spec_witness :
  print_value (fun y => match y with
                        | S754_finite false 3 0 => "3"
                        | _ => "0.59999999999999998"
                        end) (S754_finite false 3 0) = "3.0".
Proof.
  refine (proj1 (print_value_spec _ (S754_finite false 3 0) _)).
  intros _. cbn. lia.
Defined.

End PrintValueFacts.

(** ** Running the test functions symbolically *)

(** Unfolds the harness down to the external calls, inside hypothesis [H]. *)
Ltac harness_eval H :=
  cbv beta iota zeta delta
    [trace result initial_world testing_spr2 testing_spr2_bad_arg
     bind ret emit after_check check_hip expect_status
     CHECK_HIP_ERROR CHECK_DEVICE_ALLOCATION CHECK_ROCBLAS_ERROR
     EXPECT_ROCBLAS_STATUS
     local_handle_ctor local_handle_dtor handle_of
     LocalHandle.ctor LocalHandle.dtor LocalHandle.to_handle LocalHandle.handle
     host_vector device_vector memcheck store rocblas_init assign
     transfer_from free scope_exit snapshot snapshot_alpha rocblas_spr2
     rocblas_set_pointer_mode rocblas_get_stream stream_of cblas_spr2
     get_time_us_no_sync get_time_us_sync unit_check_general
     norm_check_general log_args
     set_mem set_rng tick set_pmode mem rng ticks pmode
     buffer_eqb buffer_index Nat.eqb orb] in H.

(** Names the result of the timing part, for statements that do not look
    into it. *)
Ltac skip_timing H arg :=
  match type of H with
  | context [let (_, _) := ?t in _] =>
      match t with
      | (if timing arg then _ else _) _ =>
          destruct t as [[? ?] [[]|]]; harness_eval H
      end
  end.

(** Runs [testing_spr2] in [H] under the facts of a cooperative
    environment: evaluates, rewrites the statuses of the checked calls,
    and goes on until nothing moves. *)
Ltac settle_checks H Hmem Htrf Hpm Hst Hspr Hsucc Hrefl :=
  repeat (progress
            (harness_eval H;
             rewrite ?Hmem, ?Htrf, ?Hpm, ?Hst, ?Hsucc, ?Hrefl in H;
             rewrite ?Hspr in H
               by (unfold regular_call; cbn;
                   repeat split; try reflexivity; discriminate))).

(** Proves that an event occurs in a list made of conses and appends. *)
Ltac find_event :=
  repeat first [ left; reflexivity | right | apply in_or_app; right ].

Section HarnessFacts.
Context {T rocblas_handle hipStream_t RNG : Type}.
Variable X : externals T rocblas_handle hipStream_t RNG.

Local Abbreviation event := (@event T rocblas_handle hipStream_t).
Local Abbreviation M := (M T rocblas_handle hipStream_t RNG).
Local Abbreviation world := (world T RNG).

Lemma guard_true (arg : Arguments) :
  arg_N arg < 0 \/ incx arg = 0 \/ incy arg = 0 ->
  (arg_N arg <? 0) || (incx arg =? 0) || (incy arg =? 0) = true.
Proof.
  intros [H | [H | H]].
  - apply Z.ltb_lt in H. now rewrite H.
  - apply Z.eqb_eq in H. rewrite H. now rewrite orb_true_r.
  - apply Z.eqb_eq in H. rewrite H. now rewrite orb_true_r.
Qed.

Lemma guard_false (arg : Arguments) :
  0 <= arg_N arg -> incx arg <> 0 -> incy arg <> 0 ->
  (arg_N arg <? 0) || (incx arg =? 0) || (incy arg =? 0) = false.
Proof.
  intros HN Hx Hy.
  apply Z.ltb_ge in HN. apply Z.eqb_neq in Hx. apply Z.eqb_neq in Hy.
  now rewrite HN, Hx, Hy.
Qed.

Lemma rocblas_status_eqb_refl (s : rocblas_status) :
  rocblas_status_eqb s s = true.
Proof. destruct s; cbn; [reflexivity .. | apply Pos.eqb_refl]. Qed.

(** A check that holds, or whose macro is not fatal, lets the run go on. *)
Lemma check_goes_on (m : check_macro) (actual expected : rocblas_status) :
  actual = expected \/ fatal X m = false ->
  (if rocblas_status_eqb actual expected then Returned tt
   else if fatal X m then Stopped else Returned tt) = Returned tt.
Proof.
  intros [-> | ->].
  - now rewrite rocblas_status_eqb_refl.
  - now destruct (rocblas_status_eqb actual expected).
Qed.

Lemma store_first (b : buffer) (v : T) :
  store_at 0 v (new_storage X b 1) = [v].
Proof. reflexivity. Qed.

(** A loop whose body is one vendor call that always returns: it returns,
    having made one call per trip and read no clock. *)
Lemma for_loop_calls (body : M unit) :
  (forall w, exists e w',
      body w = ([e], w', Returned tt) /\ is_spr2 e = true /\
      ticks w' = ticks w) ->
  forall (n : nat) (w : world), exists es w',
      for_loop n body w = (es, w', Returned tt) /\
      List.length es = n /\ forallb is_spr2 es = true /\
      ticks w' = ticks w.
Proof.
  intros Hbody n. induction n as [|n IH]; intros w.
  - exists [], w. repeat split.
  - destruct (Hbody w) as (e & w1 & Eb & He & Ht).
    destruct (IH w1) as (es & w2 & El & Hlen & Hall & Ht').
    exists (e :: es), w2. cbn [for_loop]. unfold bind. rewrite Eb, El.
    cbn [app List.length forallb]. rewrite He, Hall, Hlen, Ht', Ht.
    repeat split.
Qed.

(** C3.  When [N < 0], [incx == 0] or [incy == 0], [testing_spr2] creates
    its handle, calls the vendor function once with null [alpha], [x], [y]
    and [A], compares the returned status with
    [rocblas_status_invalid_size], and is done: nothing follows but the
    destruction of the handle on return, and no vector is ever
    allocated.  If the status is the expected one the function returns. *)
Theorem testing_spr2_invalid_size (arg : Arguments) (seed : RNG) :
  arg_N arg < 0 \/ incx arg = 0 \/ incy arg = 0 ->
  let h := rocblas_create_handle X in
  let probe :=
    {| c_fortran := fortran arg; c_mode := None; c_handle := Some h;
       c_uplo := char2rocblas_fill X (uplo arg); c_N := arg_N arg;
       c_alpha := scalar_null; c_x := vec_null; c_incx := incx arg;
       c_y := vec_null; c_incy := incy arg; c_A := vec_null |} in
  trace (testing_spr2 X arg) seed =
    [ev_handle (LocalHandle.call_create_handle h);
     ev_spr2 probe;
     ev_expect macro_EXPECT_ROCBLAS_STATUS
       (rocblas_spr2_status X probe) rocblas_status_invalid_size] ++
    match result (testing_spr2 X arg) seed with
    | Returned _ => [ev_handle (LocalHandle.call_destroy_handle h)]
    | Stopped => []
    end /\
  existsb is_alloc (trace (testing_spr2 X arg) seed) = false /\
  (rocblas_spr2_status X probe = rocblas_status_invalid_size ->
   result (testing_spr2 X arg) seed = Returned tt).
Proof.
  intros Hbad h probe. subst h probe.
  remember (trace (testing_spr2 X arg) seed) as tr eqn:Htr.
  remember (result (testing_spr2 X arg) seed) as res eqn:Hres.
  unfold trace, testing_spr2 in Htr. unfold result, testing_spr2 in Hres.
  rewrite (guard_true arg Hbad) in Htr, Hres.
  harness_eval Htr. harness_eval Hres.
  match type of Htr with
  | context [rocblas_status_eqb ?a ?b] =>
      destruct (rocblas_status_eqb a b) eqn:Est
  end.
  - cbn [fst snd app map] in Htr, Hres. subst tr res.
    split; [reflexivity|]. split; [reflexivity|]. intros _. reflexivity.
  - destruct (fatal X macro_EXPECT_ROCBLAS_STATUS);
      cbn [fst snd app map] in Htr, Hres; subst tr res;
      (split; [reflexivity|]); (split; [reflexivity|]);
      intros E; rewrite E in Est; discriminate Est.
Qed.

Lemma hipError_eqb_success : hipError_eqb hipSuccess hipSuccess = true.
Proof. reflexivity. Qed.

(** C2.  When the device vectors are allocated and the run is not cut short
    (a failed [EXPECT_ROCBLAS_STATUS] is not fatal, or the vendor answers as
    documented), [testing_spr2_bad_arg] makes five vendor calls with
    [N = 100], [incx = incy = 1] and a host [alpha], each followed by the
    comparison of its status with the expected code: fill mode
    [rocblas_fill_full] against [invalid_value]; then, with fill mode
    upper, [x] null, [y] null and [A] null in turn against
    [invalid_pointer]; and last a null handle against [invalid_handle].
    In each call every other argument is a live handle or device
    vector. *)
Theorem testing_spr2_bad_arg_probes (arg : Arguments) (seed : RNG) :
  (forall b, memcheck_result X b = hipSuccess) ->
  fatal X macro_EXPECT_ROCBLAS_STATUS = false \/ rejects_as_documented X ->
  exists (pre post : list event) (x0 y0 A1 A2 A3 A5 : list T),
    let h := Some (rocblas_create_handle X) in
    let probe hd ul x y A :=
      {| c_fortran := fortran arg; c_mode := None; c_handle := hd;
         c_uplo := ul; c_N := 100;
         c_alpha := scalar_host (T_of_double X double_0_6);
         c_x := x; c_incx := 1; c_y := y; c_incy := 1; c_A := A |} in
    let p_fill := probe h rocblas_fill_full
                    (vec_dev dx x0) (vec_dev dy y0) (vec_dev dA_1 A1) in
    let p_x := probe h rocblas_fill_upper
                    vec_null (vec_dev dy y0) (vec_dev dA_1 A2) in
    let p_y := probe h rocblas_fill_upper
                    (vec_dev dx x0) vec_null (vec_dev dA_1 A3) in
    let p_A := probe h rocblas_fill_upper
                    (vec_dev dx x0) (vec_dev dy y0) vec_null in
    let p_handle := probe None rocblas_fill_upper
                    (vec_dev dx x0) (vec_dev dy y0) (vec_dev dA_1 A5) in
    let expect p s :=
      ev_expect macro_EXPECT_ROCBLAS_STATUS (rocblas_spr2_status X p) s in
    trace (testing_spr2_bad_arg X arg) seed =
      pre ++
      [ev_spr2 p_fill; expect p_fill rocblas_status_invalid_value;
       ev_spr2 p_x; expect p_x rocblas_status_invalid_pointer;
       ev_spr2 p_y; expect p_y rocblas_status_invalid_pointer;
       ev_spr2 p_A; expect p_A rocblas_status_invalid_pointer;
       ev_spr2 p_handle; expect p_handle rocblas_status_invalid_handle] ++
      post.
Proof.
  intros Hmem Hrun.
  remember (trace (testing_spr2_bad_arg X arg) seed) as tr eqn:Htr.
  unfold trace in Htr. harness_eval Htr.
  rewrite ?Hmem, ?hipError_eqb_success in Htr. harness_eval Htr.
  assert (Hgo : forall c expected,
             (c_handle c = None /\ expected = rocblas_status_invalid_handle) \/
             (c_handle c <> None /\ c_uplo c = rocblas_fill_full /\
              expected = rocblas_status_invalid_value) \/
             (c_handle c <> None /\ c_uplo c <> rocblas_fill_full /\
              (0 < c_N c /\ c_incx c <> 0 /\ c_incy c <> 0) /\
              (c_x c = vec_null \/ c_y c = vec_null \/ c_A c = vec_null) /\
              expected = rocblas_status_invalid_pointer) ->
             rocblas_spr2_status X c = expected \/
             fatal X macro_EXPECT_ROCBLAS_STATUS = false).
  { intros c expected Hc. destruct Hrun as [Hnf | Hdoc]; [now right | left].
    destruct Hc as [[Hh ->] | [(Hh & Hu & ->) |
                               (Hh & Hu & (HN & Hix & Hiy) & Hp & ->)]].
    - now apply doc_handle.
    - now apply doc_value.
    - now apply doc_pointer. }
  repeat (rewrite check_goes_on in Htr
            by (apply Hgo; cbn;
                first [ left; split; reflexivity
                      | right; left; split; [discriminate|]; split; reflexivity
                      | right; right; split; [discriminate|];
                        split; [discriminate|];
                        split; [repeat split; (reflexivity || discriminate)|];
                        split; [tauto | reflexivity] ]);
          harness_eval Htr).
  cbn [fst snd app map] in Htr.
  exists (firstn 10 tr). subst tr. cbn [firstn].
  do 7 eexists. cbv zeta. cbn [app]. reflexivity.
Qed.

(** C1.  In a cooperative environment, a call of [testing_spr2] with valid
    sizes and [unit_check] or [norm_check] set runs the vendor function in
    host pointer mode on [dA_1] and in device pointer mode on [dA_2], runs
    [cblas_spr2] on [hA_gold], copies [dA_1] and [dA_2] back into [hA_1]
    and [hA_2], and hands each of the two GPU results together with the
    reference result to [unit_check_general] (if [unit_check]) and to
    [norm_check_general] (if [norm_check]). *)
Theorem testing_spr2_compares_with_reference (arg : Arguments) (seed : RNG) :
  unit_check arg || norm_check arg = true ->
  0 <= arg_N arg -> incx arg <> 0 -> incy arg <> 0 ->
  cooperative X arg ->
  exists (pre post : list event) (A0 x0 y0 : list T),
    let ul := char2rocblas_fill X (uplo arg) in
    let al := get_alpha X arg in
    let call m a A :=
      {| c_fortran := fortran arg; c_mode := Some m;
         c_handle := Some (rocblas_create_handle X);
         c_uplo := ul; c_N := arg_N arg; c_alpha := a;
         c_x := vec_dev dx x0; c_incx := incx arg;
         c_y := vec_dev dy y0; c_incy := incy arg;
         c_A := vec_dev A A0 |} in
    let gpu_1 := call rocblas_pointer_mode_host (scalar_host al) dA_1 in
    let gpu_2 :=
      call rocblas_pointer_mode_device (scalar_dev d_alpha [al]) dA_2 in
    let result_1 := rocblas_spr2_result X gpu_1 in
    let result_2 := rocblas_spr2_result X gpu_2 in
    let gold :=
      cblas_spr2_result X ul (arg_N arg) al x0 (incx arg) y0 (incy arg) A0 in
    let ok := ev_expect macro_CHECK_ROCBLAS_ERROR
                rocblas_status_success rocblas_status_success in
    let copied := ev_check_hip macro_CHECK_HIP_ERROR hipSuccess in
    let size_A := size_A_of (arg_N arg) in
    trace (testing_spr2 X arg) seed =
      pre ++
      [ev_set_pointer_mode rocblas_pointer_mode_host; ok;
       ev_spr2 gpu_1; ok;
       ev_set_pointer_mode rocblas_pointer_mode_device; ok;
       ev_spr2 gpu_2; ok;
       ev_time_no_sync;
       ev_cblas_spr2 ul (arg_N arg) al x0 (incx arg) y0 (incy arg) A0;
       ev_time_no_sync;
       ev_transfer hA_1 dA_1 result_1; copied;
       ev_transfer hA_2 dA_2 result_2; copied] ++
      (if unit_check arg
       then [ev_unit_check 1 size_A 1 gold result_1;
             ev_unit_check 1 size_A 1 gold result_2]
       else []) ++
      (if norm_check arg
       then [ev_norm_check "F" 1 size_A 1 gold result_1;
             ev_norm_check "F" 1 size_A 1 gold result_2]
       else []) ++
      post.
Proof.
  intros Hflag HN Hx Hy [Hmem Htrf Hpm Hst Hspr].
  specialize (Hspr Hflag).
  remember (trace (testing_spr2 X arg) seed) as tr eqn:Htr.
  unfold trace, testing_spr2 in Htr.
  rewrite (guard_false arg HN Hx Hy) in Htr.
  destruct (unit_check arg), (norm_check arg); try discriminate Hflag;
    settle_checks Htr Hmem Htrf Hpm Hst Hspr
      hipError_eqb_success rocblas_status_eqb_refl;
    skip_timing Htr arg;
    cbn [fst snd app map] in Htr; rewrite ?store_first in Htr;
    exists (firstn 50 tr); subst tr; cbn [firstn];
    do 4 eexists; cbv zeta; cbn [app]; reflexivity.
Qed.

(** C4.  In a cooperative environment, in a correctness run of
    [testing_spr2] the matrix [A0] read from [hA_1] after initialisation is
    what goes to [dA_1] and to [dA_2] and what [hA_gold] holds; [dx] and
    [dy] receive the contents [x0], [y0] of [hx], [hy]; [d_alpha] receives
    the single value [h_alpha].  The first vendor call then reads [A0],
    [x0], [y0] and [&h_alpha], the second reads [A0], [x0], [y0] and
    [d_alpha] holding [h_alpha], and [cblas_spr2] reads [A0], [x0], [y0]
    and [h_alpha]. *)
Theorem testing_spr2_identical_inputs (arg : Arguments) (seed : RNG) :
  unit_check arg || norm_check arg = true ->
  0 <= arg_N arg -> incx arg <> 0 -> incy arg <> 0 ->
  cooperative X arg ->
  exists (pre post : list event) (A0 x0 y0 : list T),
    let ul := char2rocblas_fill X (uplo arg) in
    let h_alpha := get_alpha X arg in
    let call m a A :=
      {| c_fortran := fortran arg; c_mode := Some m;
         c_handle := Some (rocblas_create_handle X);
         c_uplo := ul; c_N := arg_N arg; c_alpha := a;
         c_x := vec_dev dx x0; c_incx := incx arg;
         c_y := vec_dev dy y0; c_incy := incy arg;
         c_A := vec_dev A A0 |} in
    let ok := ev_expect macro_CHECK_ROCBLAS_ERROR
                rocblas_status_success rocblas_status_success in
    let copied := ev_check_hip macro_CHECK_HIP_ERROR hipSuccess in
    trace (testing_spr2 X arg) seed =
      pre ++
      [ev_init hA_1 true; ev_init hx false; ev_init hy false;
       ev_assign hA_gold hA_1; ev_assign hA_2 hA_1;
       ev_transfer dA_1 hA_1 A0; copied;
       ev_transfer dA_2 hA_1 A0; copied;
       ev_transfer dx hx x0; copied;
       ev_transfer dy hy y0; copied;
       ev_transfer d_alpha halpha [h_alpha]; copied;
       ev_set_pointer_mode rocblas_pointer_mode_host; ok;
       ev_spr2 (call rocblas_pointer_mode_host (scalar_host h_alpha) dA_1);
       ok;
       ev_set_pointer_mode rocblas_pointer_mode_device; ok;
       ev_spr2 (call rocblas_pointer_mode_device
                  (scalar_dev d_alpha [h_alpha]) dA_2);
       ok;
       ev_time_no_sync;
       ev_cblas_spr2 ul (arg_N arg) h_alpha x0 (incx arg) y0 (incy arg) A0] ++
      post.
Proof.
  intros Hflag HN Hx Hy [Hmem Htrf Hpm Hst Hspr].
  specialize (Hspr Hflag).
  remember (trace (testing_spr2 X arg) seed) as tr eqn:Htr.
  unfold trace, testing_spr2 in Htr.
  rewrite (guard_false arg HN Hx Hy) in Htr.
  destruct (unit_check arg), (norm_check arg); try discriminate Hflag;
    settle_checks Htr Hmem Htrf Hpm Hst Hspr
      hipError_eqb_success rocblas_status_eqb_refl;
    skip_timing Htr arg;
    cbn [fst snd app map] in Htr; rewrite ?store_first in Htr;
    exists (firstn 35 tr); subst tr; cbn [firstn];
    do 4 eexists; cbv zeta; cbn [app]; reflexivity.
Qed.

(** Replaces the first loop standing in [H] by its result: the events
    [es] of its calls and the world it ends in, whose clock count is the
    one the loop started with. *)
Ltac run_loop H es w' Hlen Hall Htk :=
  match type of H with
  | context [for_loop ?n ?b ?w] =>
      let HB := fresh "HB" in
      let E := fresh "E" in
      assert (HB : forall w0, exists e w1,
                 b w0 = ([e], w1, Returned tt) /\ is_spr2 e = true /\
                 ticks w1 = ticks w0)
        by (intros w0; do 2 eexists; split; [reflexivity | split; reflexivity]);
      destruct (for_loop_calls b HB n w) as (es & w' & E & Hlen & Hall & Htk);
      rewrite E in H; clear E HB;
      let tk := fresh "tk" in
      destruct w' as [? ? tk ?]; harness_eval Htk; subst tk;
      harness_eval H
  end.

(** C7.  In a cooperative environment, a call of [testing_spr2] with valid
    sizes and [timing] set reads the stream-synchronised clock exactly
    twice.  Before the first reading come the warm-up calls, one per trip
    of the [cold_iters] loop, and the stream query; between the two
    readings come the calls of the [iters] loop and nothing else, one per
    trip, that is [iters] of them ([0] for a negative [iters]); the logged
    GPU time is the second reading minus the first. *)
Theorem testing_spr2_timed_region (arg : Arguments) (seed : RNG) :
  timing arg = true ->
  0 <= arg_N arg -> incx arg <> 0 -> incy arg <> 0 ->
  cooperative X arg ->
  exists (pre cold hot post : list event) (s : hipStream_t) (k : nat)
         (cpu_time error_1 error_2 : option double),
    trace (testing_spr2 X arg) seed =
      pre ++ cold ++
      [ev_get_stream;
       ev_expect macro_CHECK_ROCBLAS_ERROR
         rocblas_status_success rocblas_status_success;
       ev_time_sync s] ++
      hot ++
      [ev_time_sync s;
       ev_log_args (double_sub (time_sync X s (S k)) (time_sync X s k))
         (spr2_gflop_count X (arg_N arg)) (spr2_gbyte_count X (arg_N arg))
         cpu_time error_1 error_2] ++
      post /\
    List.length cold = Z.to_nat (cold_iters arg) /\
    forallb is_spr2 cold = true /\
    List.length hot = Z.to_nat (iters arg) /\
    Z.of_nat (List.length hot) = Z.max 0 (iters arg) /\
    forallb is_spr2 hot = true /\
    existsb is_time_sync pre = false /\
    existsb is_time_sync post = false.
Proof.
  intros Htime HN Hx Hy [Hmem Htrf Hpm Hst Hspr].
  remember (trace (testing_spr2 X arg) seed) as tr eqn:Htr.
  unfold trace, testing_spr2 in Htr.
  rewrite (guard_false arg HN Hx Hy), Htime in Htr.
  assert (Hmax : forall n, Z.of_nat (Z.to_nat n) = Z.max 0 n) by (intros; lia).
  destruct (unit_check arg), (norm_check arg);
    try specialize (Hspr eq_refl);
    settle_checks Htr Hmem Htrf Hpm Hst Hspr
      hipError_eqb_success rocblas_status_eqb_refl;
    run_loop Htr cold w1 Hlen1 Hall1 Htk1;
    settle_checks Htr Hmem Htrf Hpm Hst Hspr
      hipError_eqb_success rocblas_status_eqb_refl;
    run_loop Htr hot w2 Hlen2 Hall2 Htk2;
    cbn [fst snd app map] in Htr;
    repeat (rewrite <- app_assoc in Htr; cbn [app] in Htr);
    [ exists (firstn 71 tr) | exists (firstn 69 tr)
    | exists (firstn 69 tr) | exists (firstn 52 tr) ];
    exists cold, hot; subst tr; cbn [firstn];
    do 6 eexists;
    (split; [cbn [app]; reflexivity|]);
    rewrite Hlen1, Hlen2, Hmax; repeat split; assumption.
Qed.

(** C8.  With [timing] set and [norm_check] clear, what [testing_spr2]
    passes to [log_args] as [rocblas_error_1] and [rocblas_error_2] was
    never assigned; with [unit_check] clear as well, neither was
    [cpu_time_used]. *)
Theorem testing_spr2_logs_unassigned (arg : Arguments) (seed : RNG) :
  timing arg = true -> norm_check arg = false ->
  0 <= arg_N arg -> incx arg <> 0 -> incy arg <> 0 ->
  cooperative X arg ->
  exists (gpu_time : double) (cpu_time : option double),
    In (ev_log_args gpu_time
          (spr2_gflop_count X (arg_N arg)) (spr2_gbyte_count X (arg_N arg))
          cpu_time None None)
       (trace (testing_spr2 X arg) seed) /\
    (unit_check arg = false -> cpu_time = None).
Proof.
  intros Htime Hnorm HN Hx Hy [Hmem Htrf Hpm Hst Hspr].
  remember (trace (testing_spr2 X arg) seed) as tr eqn:Htr.
  unfold trace, testing_spr2 in Htr.
  rewrite (guard_false arg HN Hx Hy), Htime, Hnorm in Htr.
  destruct (unit_check arg);
    try specialize (Hspr eq_refl);
    settle_checks Htr Hmem Htrf Hpm Hst Hspr
      hipError_eqb_success rocblas_status_eqb_refl;
    run_loop Htr cold w1 Hlen1 Hall1 Htk1;
    settle_checks Htr Hmem Htrf Hpm Hst Hspr
      hipError_eqb_success rocblas_status_eqb_refl;
    run_loop Htr hot w2 Hlen2 Hall2 Htk2;
    cbn [fst snd app map] in Htr;
    repeat (rewrite <- app_assoc in Htr; cbn [app] in Htr);
    subst tr; do 2 eexists;
    (split; [find_event | first [discriminate | intros _; reflexivity]]).
Qed.

(** X9.  In a cooperative environment a run of [testing_spr2] with valid
    sizes passes every check and returns, whatever the three flags. *)
Lemma testing_spr2_returns (arg : Arguments) (seed : RNG) :
  0 <= arg_N arg -> incx arg <> 0 -> incy arg <> 0 ->
  cooperative X arg ->
  result (testing_spr2 X arg) seed = Returned tt.
Proof.
  intros HN Hx Hy [Hmem Htrf Hpm Hst Hspr].
  remember (result (testing_spr2 X arg) seed) as res eqn:Hres.
  unfold result, testing_spr2 in Hres.
  rewrite (guard_false arg HN Hx Hy) in Hres.
  destruct (unit_check arg), (norm_check arg), (timing arg);
    try specialize (Hspr eq_refl);
    settle_checks Hres Hmem Htrf Hpm Hst Hspr
      hipError_eqb_success rocblas_status_eqb_refl;
    try (run_loop Hres cold w1 Hlen1 Hall1 Htk1;
         settle_checks Hres Hmem Htrf Hpm Hst Hspr
           hipError_eqb_success rocblas_status_eqb_refl;
         run_loop Hres hot w2 Hlen2 Hall2 Htk2);
    cbn [fst snd] in Hres; exact Hres.
Qed.
End HarnessFacts.

(** ** The allocations of [testing_spr2] *)

Section AllocationFacts.
Context {T rocblas_handle hipStream_t RNG : Type}.
Variable X : externals T rocblas_handle hipStream_t RNG.

Local Abbreviation event := (@event T rocblas_handle hipStream_t).
Local Abbreviation M := (M T rocblas_handle hipStream_t RNG).
Local Abbreviation world := (world T RNG).

(** The events of a sequence start with those of its first statement. *)
Lemma events_bind {A B} (m : M A) (k : A -> M B) (w : world) :
  fst (fst (bind m k w)) =
  fst (fst (m w)) ++
  match snd (m w) with
  | Returned a => fst (fst (k a (snd (fst (m w)))))
  | Stopped => []
  end.
Proof.
  unfold bind. destruct (m w) as [[es w1] [a|]]; cbn [fst snd].
  - destruct (k a w1) as [[es' w2] o]. reflexivity.
  - now rewrite app_nil_r.
Qed.

Lemma local_handle_ctor_run (w : world) :
  local_handle_ctor X w =
  ([ev_handle (LocalHandle.call_create_handle (rocblas_create_handle X))], w,
   Returned {| LocalHandle.handle := rocblas_create_handle X |}).
Proof. reflexivity. Qed.

Lemma host_vector_run (b : buffer) (n : Z) (w : world) :
  host_vector X b n w =
  ([ev_alloc b n], set_mem w b (new_storage X b n), Returned tt).
Proof. reflexivity. Qed.

(** With valid sizes, [testing_spr2] starts by creating its handle and
    allocating the six host vectors: the three matrices with
    [size_A_of N] elements, [hx] and [hy] with [size_vec_of N] of the
    increments' [abs_inc], [halpha] with one.  This holds whatever the
    environment does afterwards. *)
Lemma testing_spr2_host_allocations (arg : Arguments) (seed : RNG) :
  0 <= arg_N arg -> incx arg <> 0 -> incy arg <> 0 ->
  exists rest : list event,
    trace (testing_spr2 X arg) seed =
      [ev_handle (LocalHandle.call_create_handle (rocblas_create_handle X));
       ev_alloc hA_1 (size_A_of (arg_N arg));
       ev_alloc hA_2 (size_A_of (arg_N arg));
       ev_alloc hA_gold (size_A_of (arg_N arg));
       ev_alloc hx (size_vec_of (arg_N arg) (abs_inc (incx arg)));
       ev_alloc hy (size_vec_of (arg_N arg) (abs_inc (incy arg)));
       ev_alloc halpha 1] ++ rest.
Proof.
  intros HN Hx Hy. unfold trace, testing_spr2.
  rewrite (guard_false arg HN Hx Hy). cbv zeta.
  rewrite events_bind, local_handle_ctor_run. cbn [fst snd].
  rewrite events_bind.
  do 6 (rewrite events_bind, host_vector_run; cbn [fst snd]).
  rewrite <- !app_assoc. cbn [app]. eexists. reflexivity.
Qed.

(** X10.  Away from the two extreme values the sizes are the mathematical
    ones: for [0 <= N < INT_MAX] and increments in [(INT_MIN, INT_MAX]], the
    host matrices get [N(N+1)/2] elements and [hx], [hy] get [N * |incx|],
    [N * |incy|]. *)
Lemma testing_spr2_host_allocation_sizes (arg : Arguments) (seed : RNG) :
  0 <= arg_N arg < CInt.int_max ->
  incx arg <> 0 -> CInt.int_min < incx arg <= CInt.int_max ->
  incy arg <> 0 -> CInt.int_min < incy arg <= CInt.int_max ->
  exists rest : list event,
    trace (testing_spr2 X arg) seed =
      [ev_handle (LocalHandle.call_create_handle (rocblas_create_handle X));
       ev_alloc hA_1 (arg_N arg * (arg_N arg + 1) / 2);
       ev_alloc hA_2 (arg_N arg * (arg_N arg + 1) / 2);
       ev_alloc hA_gold (arg_N arg * (arg_N arg + 1) / 2);
       ev_alloc hx (arg_N arg * Z.abs (incx arg));
       ev_alloc hy (arg_N arg * Z.abs (incy arg));
       ev_alloc halpha 1] ++ rest.
Proof.
  intros HN Hx Hxr Hy Hyr.
  destruct (testing_spr2_host_allocations arg seed) as [rest E];
    [lia | assumption | assumption |].
  exists rest. rewrite E.
  rewrite size_A_of_exact by assumption.
  rewrite !size_vec_of_exact by (assumption || lia).
  reflexivity.
Qed.

(** C6.  At [N = INT_MAX] (a valid size) with unit increments,
    [testing_spr2] allocates its packed matrices with
    [2^63 - 2^61 + 2^30] elements, whereas [N(N+1)/2] is [2^61 - 2^30]: the
    sub-expression [N + 1] of [size_t(N) * (N + 1) / 2] is evaluated in
    [int] and overflows. *)
Theorem testing_spr2_size_A_at_int_max (seed : RNG) :
  exists rest : list event,
    trace (testing_spr2 X
             (sample_arguments false false false CInt.int_max 1 1)) seed =
      ev_handle (LocalHandle.call_create_handle (rocblas_create_handle X))
      :: ev_alloc hA_1 (2 ^ 63 - 2 ^ 61 + 2 ^ 30)
      :: ev_alloc hA_2 (2 ^ 63 - 2 ^ 61 + 2 ^ 30)
      :: ev_alloc hA_gold (2 ^ 63 - 2 ^ 61 + 2 ^ 30)
      :: rest /\
    CInt.int_max * (CInt.int_max + 1) / 2 = 2 ^ 61 - 2 ^ 30.
Proof.
  destruct (testing_spr2_host_allocations
              (sample_arguments false false false CInt.int_max 1 1) seed)
    as [rest E]; [cbn; lia | cbn; lia | cbn; lia |].
  rewrite E. cbn [arg_N sample_arguments app].
  rewrite (proj1 size_A_of_int_max).
  eexists. split; reflexivity.
Qed.

(** C10.  At [incx = INT_MIN] with [N = 1], [testing_spr2] allocates [hx]
    with [2^64 - 2^31] elements, whereas [N * |incx|] is [2^31]: the
    negation in [incx >= 0 ? incx : -incx] overflows [int]. *)
Theorem testing_spr2_size_x_at_int_min (seed : RNG) :
  exists rest : list event,
    trace (testing_spr2 X
             (sample_arguments false false false 1 CInt.int_min 1)) seed =
      ev_handle (LocalHandle.call_create_handle (rocblas_create_handle X))
      :: ev_alloc hA_1 1 :: ev_alloc hA_2 1 :: ev_alloc hA_gold 1
      :: ev_alloc hx (2 ^ 64 - 2 ^ 31)
      :: rest /\
    1 * Z.abs CInt.int_min = 2 ^ 31.
Proof.
  destruct (testing_spr2_host_allocations
              (sample_arguments false false false 1 CInt.int_min 1) seed)
    as [rest E]; [cbn; lia | cbn; lia | cbn; lia |].
  rewrite E. cbn [arg_N incx sample_arguments app].
  rewrite (proj1 (proj2 size_vec_of_int_min)).
  eexists. split; reflexivity.
Qed.

End AllocationFacts.


(** ** [print_value] whatever the conversion produces *)

Section PrintValueAnyConversion.
Import PrintHelper.
Local Open Scope string_scope.
Variable format_17g : double -> string.

Lemma length_substring_le (s : string) (n : nat) :
  (String.length (substring 0 n s) <= n)%nat.
Proof.
  revert n. induction s as [|c s IH]; intros [|n]; cbn; try lia.
  specialize (IH n). lia.
Qed.

Lemma length_append (s t : string) :
  String.length (s ++ t) = (String.length s + String.length t)%nat.
Proof. induction s as [|c s IH]; cbn; [reflexivity | now rewrite IH]. Qed.

(** The text stored by the finite branch: the first 29 characters of the
    conversion, with [.0] after them if they hold no [.], [e] or [E]. *)
Lemma print_value_finite_any (x : double) :
  is_finite x = true ->
  print_value format_17g x =
    substring 0 29 (format_17g x) ++
    (if has_point_or_exponent (substring 0 29 (format_17g x))
     then "" else ".0").
Proof.
  intros Hfin.
  assert (E : print_value format_17g x =
              let s := substring 0 29 (format_17g x) in
              match get (strcspn s ".eE") s with
              | None => strcpy_at s (strcspn s ".eE") ".0"
              | Some _ => s
              end).
  { unfold print_value, snprintf_17g, sizeof_s.
    destruct x; try discriminate Hfin; reflexivity. }
  rewrite E. cbv zeta.
  destruct (has_point_or_exponent (substring 0 29 (format_17g x))) eqn:Hp.
  - destruct (strcspn_hit _ Hp) as [c ->].
    clear. induction (substring 0 29 (format_17g x)) as [|c s IH];
      [reflexivity|].
    cbn [append]. now rewrite <- IH.
  - destruct (strcspn_no_hit _ Hp) as [-> ->].
    unfold strcpy_at. now rewrite substring_whole by lia.
Qed.

(** X1.  For every double and every conversion text, also one longer than
    the buffer: [print_value] prints [.nan], [.inf], [-.inf], or the
    first 29 characters of the conversion, followed by [.0] exactly when
    those 29 characters hold no [.], [e] or [E]. *)
Theorem print_value_any_conversion (x : double) :
  print_value format_17g x =
    match x with
    | S754_nan => ".nan"
    | S754_infinity false => ".inf"
    | S754_infinity true => "-.inf"
    | S754_zero _ | S754_finite _ _ _ =>
        substring 0 29 (format_17g x) ++
        (if has_point_or_exponent (substring 0 29 (format_17g x))
         then "" else ".0")
    end.
Proof.
  destruct x as [s|s| |s m e].
  - now apply print_value_finite_any.
  - destruct s; reflexivity.
  - reflexivity.
  - now apply print_value_finite_any.
Qed.

(** X2.  Whatever [print_value] prints for a double contains a [.], an [e]
    or an [E]: never a bare integer, whatever the conversion returns. *)
Theorem print_value_always_marked (x : double) :
  has_point_or_exponent (print_value format_17g x) = true.
Proof.
  destruct x as [s|s| |s m e]; try (destruct s; reflexivity); try reflexivity.
  all: rewrite print_value_finite_any by reflexivity;
    rewrite has_point_or_exponent_app;
    match goal with
    | |- context [if ?b then _ else _] => destruct b
    end; reflexivity.
Qed.

(** X3.  The text assembled in [char s[32]] always fits with its
    terminator: at most 29 characters from [snprintf] and two from
    [strcpy]. *)
Theorem print_value_fits_buffer (x : double) :
  (String.length (print_value format_17g x) < sizeof_s)%nat.
Proof.
  unfold sizeof_s.
  destruct x as [s|s| |s m e]; try (destruct s; cbn; lia); try (cbn; lia).
  all: rewrite print_value_finite_any by reflexivity;
    rewrite length_append;
    match goal with
    | |- context [substring 0 29 ?t] =>
        pose proof (length_substring_le t 29)
    end;
    match goal with
    | |- context [if ?b then _ else _] => destruct b
    end; cbn [String.length]; lia.
Qed.

Lemma count_char_append (c : ascii) (s t : string) :
  count_char c (s ++ t) = (count_char c s + count_char c t)%nat.
Proof. induction s as [|d s IH]; cbn; [reflexivity | rewrite IH; lia]. Qed.

Lemma count_char_substring (c : ascii) (s : string) (n : nat) :
  count_char c s = O -> count_char c (substring 0 n s) = O.
Proof.
  revert n. induction s as [|d s IH]; intros [|n] H; cbn in *; try reflexivity.
  destruct (Ascii.eqb c d); [discriminate H|]. cbn in *. now apply IH.
Qed.

Lemma count_comma_print_value (x : double) :
  count_char "," (format_17g x) = O ->
  count_char "," (print_value format_17g x) = O.
Proof.
  intros H.
  destruct x as [s|s| |s m e]; try (destruct s; reflexivity); try reflexivity.
  all: rewrite print_value_finite_any by reflexivity;
    rewrite count_char_append, count_char_substring by exact H;
    match goal with
    | |- context [if ?b then _ else _] => destruct b
    end; reflexivity.
Qed.

(** X4.  A [rocblas_complex_num<double>] is printed as ['(re,im)'].  If the
    conversion of neither part produces a comma, the text holds exactly one
    comma, the one between the parts. *)
Theorem print_value_complex_one_comma (re im : double) :
  count_char "," (format_17g re) = O ->
  count_char "," (format_17g im) = O ->
  count_char "," (print_value_complex format_17g re im) = 1%nat.
Proof.
  intros Hre Him. unfold print_value_complex.
  rewrite !count_char_append.
  rewrite (count_comma_print_value re Hre), (count_comma_print_value im Him).
  reflexivity.
Qed.

End PrintValueAnyConversion.

(** ** [rocblas_print_matrix] *)

Section PrintMatrixFacts.
Context {T : Type}.

Lemma flat_map_ext_in {A B} (f g : A -> list B) (l : list A) :
  (forall a, In a l -> f a = g a) -> flat_map f l = flat_map g l.
Proof.
  induction l as [|a l IH]; intros H; [reflexivity|].
  cbn [flat_map]. rewrite (H a) by now left.
  rewrite IH; [reflexivity|]. intros b Hb. apply H. now right.
Qed.

Lemma map_flat_map {A B C} (h : B -> C) (f : A -> list B) (l : list A) :
  map h (flat_map f l) = flat_map (fun a => map h (f a)) l.
Proof.
  induction l as [|a l IH]; [reflexivity|].
  cbn [flat_map]. now rewrite map_app, IH.
Qed.

Lemma in_loop_range (n k : Z) : In k (loop_range n) <-> 0 <= k < n.
Proof.
  unfold loop_range. rewrite in_map_iff. split.
  - intros (i & <- & Hi). apply in_seq in Hi. lia.
  - intros H. exists (Z.to_nat k). split; [lia|]. apply in_seq. lia.
Qed.

Lemma length_loop_range (n : Z) : List.length (loop_range n) = Z.to_nat n.
Proof. unfold loop_range. now rewrite length_map, length_seq. Qed.

(** Reads at indices below the length find the element. *)
Lemma element_at_inside (v : list T) (k : Z) :
  0 <= k < Z.of_nat (List.length v) ->
  element_at v k = nth_error v (Z.to_nat k) /\ element_at v k <> None.
Proof.
  intros H. unfold element_at.
  replace ((0 <=? k) && (k <? Z.of_nat (List.length v))) with true
    by (symmetry; apply andb_true_iff; split;
        [apply Z.leb_le | apply Z.ltb_lt]; lia).
  split; [reflexivity|]. apply nth_error_Some. lia.
Qed.

Lemma nth_error_walk (l : list T) (n : nat) :
  (n <= List.length l)%nat ->
  map (fun j => nth_error l j) (seq 0 n) = map Some (firstn n l).
Proof.
  revert l. induction n as [|n IH]; intros l H; [reflexivity|].
  destruct l as [|a l]; [cbn in H; lia|].
  cbn [seq map firstn nth_error]. f_equal.
  rewrite <- seq_shift, map_map. cbn [nth_error].
  apply IH. cbn in H. lia.
Qed.

Lemma nth_error_skipn_shift (l : list T) (k j : nat) :
  nth_error l (j + k) = nth_error (skipn k l) j.
Proof.
  revert l. induction k as [|k IH]; intros l.
  - now rewrite Nat.add_0_r.
  - destruct l as [|a l]; [now destruct j|].
    rewrite Nat.add_succ_r. cbn [nth_error skipn]. apply IH.
Qed.

Lemma firstn_plus (l : list T) (a b : nat) :
  firstn (a + b) l = firstn a l ++ firstn b (skipn a l).
Proof.
  revert l. induction a as [|a IH]; intros l; [reflexivity|].
  destruct l as [|x l]; [now destruct b|].
  cbn [Nat.add firstn skipn app]. now rewrite IH.
Qed.

(** Walking [m] blocks of [n] consecutive positions visits the first
    [m * n] elements in storage order. *)
Lemma dense_walk (v : list T) (n m : nat) :
  (m * n <= List.length v)%nat ->
  flat_map (fun i => map (fun j => nth_error v (j + i * n)) (seq 0 n))
           (seq 0 m)
  = map Some (firstn (m * n) v).
Proof.
  induction m as [|m IH]; intros H; [reflexivity|].
  rewrite seq_S, flat_map_app, IH by lia. cbn [flat_map Nat.add].
  rewrite app_nil_r.
  replace (S m * n)%nat with (m * n + n)%nat by lia.
  rewrite firstn_plus, map_app. f_equal.
  rewrite <- nth_error_walk by (rewrite length_skipn; lia).
  apply map_ext. intros j. apply nth_error_skipn_shift.
Qed.

Lemma compare_index_small (i j lda : Z) :
  0 <= i -> 0 <= j -> 0 <= lda -> j + i * lda < 2 ^ 64 ->
  compare_index i j lda = j + i * lda.
Proof.
  intros Hi Hj Hl H. unfold compare_index, size_add, CInt.size_mul.
  rewrite (Z.mod_small (i * lda)) by nia.
  apply Z.mod_small. nia.
Qed.

(** X5.  With [lda = n] and vectors of at least [m * n] elements, the
    comparison printer writes [m * n] lines that show the first [m * n]
    elements of [CPU_result] and of [GPU_result] in storage order. *)
Theorem rocblas_print_matrix_compare_dense (CPU GPU : list T) (m n : Z) :
  0 <= m -> 0 <= n ->
  m * n <= Z.of_nat (List.length CPU) < 2 ^ 64 ->
  m * n <= Z.of_nat (List.length GPU) < 2 ^ 64 ->
  map line_cpu (rocblas_print_matrix_compare CPU GPU m n n)
    = map Some (firstn (Z.to_nat (m * n)) CPU) /\
  map line_gpu (rocblas_print_matrix_compare CPU GPU m n n)
    = map Some (firstn (Z.to_nat (m * n)) GPU).
Proof.
  intros Hm Hn HC HG.
  assert (walk : forall (v : list T) (pick : compare_line -> option T),
             (forall i j,
                 pick {| line_col := i; line_row := j;
                         line_cpu := element_at CPU (compare_index i j n);
                         line_gpu := element_at GPU (compare_index i j n) |}
                 = element_at v (compare_index i j n)) ->
             m * n <= Z.of_nat (List.length v) < 2 ^ 64 ->
             map pick (rocblas_print_matrix_compare CPU GPU m n n)
             = map Some (firstn (Z.to_nat (m * n)) v)).
  { intros v pick Hpick Hv.
    unfold rocblas_print_matrix_compare. rewrite map_flat_map.
    replace (Z.to_nat (m * n)) with (Z.to_nat m * Z.to_nat n)%nat by nia.
    rewrite <- dense_walk by nia.
    unfold loop_range. rewrite !flat_map_concat_map, !map_map.
    f_equal. apply map_ext_in. intros i Hi. apply in_seq in Hi.
    rewrite !map_map. apply map_ext_in. intros j Hj. apply in_seq in Hj.
    rewrite Hpick.
    rewrite compare_index_small by nia.
    destruct (element_at_inside v (Z.of_nat j + Z.of_nat i * n)) as [-> _];
      [nia|].
    f_equal. nia. }
  split; apply walk; (reflexivity || assumption).
Qed.

(** X6.  With [n <= lda] and vectors reaching to the last element of the
    last block, every line of the comparison printer shows, after
    [col i, row j], the elements at offset [j + i * lda], each read inside
    its vector. *)
Theorem rocblas_print_matrix_compare_in_bounds (CPU GPU : list T)
    (m n lda : Z) :
  0 <= n <= lda ->
  (m - 1) * lda + n <= Z.of_nat (List.length CPU) < 2 ^ 64 ->
  (m - 1) * lda + n <= Z.of_nat (List.length GPU) < 2 ^ 64 ->
  Forall (fun l =>
            line_cpu l
              = nth_error CPU (Z.to_nat (line_row l + line_col l * lda)) /\
            line_cpu l <> None /\
            line_gpu l
              = nth_error GPU (Z.to_nat (line_row l + line_col l * lda)) /\
            line_gpu l <> None)
         (rocblas_print_matrix_compare CPU GPU m n lda).
Proof.
  intros Hn HC HG. apply Forall_forall. intros l Hl.
  unfold rocblas_print_matrix_compare in Hl.
  apply in_flat_map in Hl. destruct Hl as (i & Hi & Hl).
  apply in_map_iff in Hl. destruct Hl as (j & <- & Hj).
  apply in_loop_range in Hi, Hj. cbn [line_cpu line_gpu line_row line_col].
  assert (Hidx : 0 <= j + i * lda /\ j + i * lda <= (m - 1) * lda + n - 1)
    by nia.
  rewrite compare_index_small by nia.
  destruct (element_at_inside CPU (j + i * lda)) as [EC NC]; [lia|].
  destruct (element_at_inside GPU (j + i * lda)) as [EG NG]; [lia|].
  rewrite <- EC, <- EG. auto.
Qed.

Lemma string_app_assoc (a b c : string) :
  ((a ++ b) ++ c = a ++ (b ++ c))%string.
Proof. induction a as [|ch a IH]; cbn; [reflexivity | now rewrite IH]. Qed.

Lemma stdout_text_cons_text (s : string) (out : list (@chunk T)) :
  stdout_text (to_stdout s :: out) = (s ++ stdout_text out)%string.
Proof. reflexivity. Qed.

Lemma stdout_text_cons_element (v : option T) (out : list (@chunk T)) :
  stdout_text (to_rocblas_cout v :: out) = stdout_text out.
Proof. reflexivity. Qed.

Lemma stdout_text_app (a b : list (@chunk T)) :
  stdout_text (a ++ b) = (stdout_text a ++ stdout_text b)%string.
Proof.
  induction a as [|c a IH]; [reflexivity|].
  cbn [app]. destruct c as [s|v].
  - now rewrite !stdout_text_cons_text, IH, string_app_assoc.
  - now rewrite !stdout_text_cons_element.
Qed.

Lemma stdout_text_row (A : list T) (lda i : Z) (cols : list Z) :
  stdout_text
    (flat_map (fun j => [to_rocblas_cout (element_at A (matrix_index i j lda));
                         to_stdout " "%string]) cols)
  = repeat_text (List.length cols) " ".
Proof.
  induction cols as [|j cols IH]; [reflexivity|].
  cbn [flat_map app List.length repeat_text].
  now rewrite stdout_text_cons_element, stdout_text_cons_text, IH.
Qed.

(** X7.  What the matrix printer sends to standard output depends on the
    name, [m] and [n] only: the header line, then [m] lines of [n] blanks
    each; for [m <= 0] the header alone.  The elements themselves go to
    [rocblas_cout], none of them to standard output. *)
Theorem rocblas_print_matrix_stdout (name : string) (A : list T)
    (m n lda : Z) :
  stdout_text (rocblas_print_matrix name A m n lda)
  = ("---------- " ++ name ++ " ----------" ++ newline
     ++ repeat_text (Z.to_nat m)
          (repeat_text (Z.to_nat n) " " ++ newline))%string.
Proof.
  unfold rocblas_print_matrix.
  rewrite stdout_text_cons_text.
  assert (rows : forall is_,
             stdout_text
               (flat_map
                  (fun i =>
                     flat_map
                       (fun j =>
                          [to_rocblas_cout (element_at A (matrix_index i j lda));
                           to_stdout " "%string]) (loop_range n)
                     ++ [to_stdout newline]) is_)
             = repeat_text (List.length is_)
                 (repeat_text (Z.to_nat n) " " ++ newline)%string).
  { induction is_ as [|i is_ IH]; [reflexivity|].
    cbn [flat_map List.length repeat_text].
    rewrite !stdout_text_app, stdout_text_row, length_loop_range, IH.
    change (stdout_text [to_stdout newline]) with newline.
    reflexivity. }
  rewrite rows, length_loop_range.
  now rewrite !string_app_assoc.
Qed.

Lemma cout_elements_app (a b : list (@chunk T)) :
  cout_elements (a ++ b) = cout_elements a ++ cout_elements b.
Proof. unfold cout_elements. apply flat_map_app. Qed.

Lemma cout_elements_row (A : list T) (lda i : Z) (cols : list Z) :
  cout_elements
    (flat_map (fun j => [to_rocblas_cout (element_at A (matrix_index i j lda));
                         to_stdout " "%string]) cols)
  = map (fun j => element_at A (matrix_index i j lda)) cols.
Proof.
  induction cols as [|j cols IH]; [reflexivity|].
  cbn [flat_map map]. rewrite cout_elements_app, IH. reflexivity.
Qed.

Lemma matrix_index_small (i j lda : Z) :
  0 <= i -> 0 <= j -> 0 <= lda -> i + j * lda <= CInt.int_max ->
  matrix_index i j lda = i + j * lda.
Proof.
  intros Hi Hj Hl H. unfold matrix_index, int_mul, CInt.int_add.
  rewrite (wrap_int_id (j * lda)) by (unfold CInt.in_int, CInt.int_min, CInt.int_max in *; nia).
  apply wrap_int_id. unfold CInt.in_int, CInt.int_min, CInt.int_max in *. nia.
Qed.

(** X8.  For a column-major matrix of [m] rows and [n] columns with leading
    dimension [lda >= m], stored in at least [lda * n] elements (and no
    more than [INT_MAX]), the matrix printer hands [m * n] elements to
    [print_value], row by row and column by column inside a row: for row
    [i] and column [j] the element at offset [i + j * lda], each read
    inside the storage. *)
Theorem rocblas_print_matrix_elements (name : string) (A : list T)
    (m n lda : Z) :
  0 <= m <= lda -> 0 <= n ->
  lda * n <= Z.of_nat (List.length A) <= CInt.int_max ->
  cout_elements (rocblas_print_matrix name A m n lda)
  = flat_map
      (fun i => map (fun j => nth_error A (Z.to_nat (i + j * lda)))
                    (loop_range n))
      (loop_range m) /\
  Forall (fun v => v <> None)
         (cout_elements (rocblas_print_matrix name A m n lda)) /\
  List.length (cout_elements (rocblas_print_matrix name A m n lda))
  = (Z.to_nat m * Z.to_nat n)%nat.
Proof.
  intros Hm Hn HA.
  assert (E : cout_elements (rocblas_print_matrix name A m n lda)
              = flat_map
                  (fun i => map (fun j => element_at A (matrix_index i j lda))
                                (loop_range n))
                  (loop_range m)).
  { unfold rocblas_print_matrix.
    change (cout_elements (to_stdout ?s :: ?l)) with (cout_elements l).
    generalize (loop_range m) as is_.
    induction is_ as [|i is_ IH]; [reflexivity|].
    cbn [flat_map].
    rewrite !cout_elements_app, cout_elements_row, IH.
    cbn [cout_elements flat_map]. now rewrite app_nil_r. }
  assert (inside : forall i j, 0 <= i < m -> 0 <= j < n ->
             element_at A (matrix_index i j lda)
             = nth_error A (Z.to_nat (i + j * lda)) /\
             element_at A (matrix_index i j lda) <> None).
  { intros i j Hi Hj.
    assert (i + j * lda < lda * n) by nia.
    rewrite matrix_index_small by nia.
    apply element_at_inside. nia. }
  rewrite E. split; [|split].
  - apply flat_map_ext_in. intros i Hi. apply in_loop_range in Hi.
    apply map_ext_in. intros j Hj. apply in_loop_range in Hj.
    apply inside; assumption.
  - apply Forall_forall. intros v Hv.
    apply in_flat_map in Hv. destruct Hv as (i & Hi & Hv).
    apply in_map_iff in Hv. destruct Hv as (j & <- & Hj).
    apply in_loop_range in Hi, Hj. apply inside; assumption.
  - rewrite <- (length_loop_range m), <- (length_loop_range n).
    generalize (loop_range m) as is_.
    induction is_ as [|i is_ IH]; [reflexivity|].
    cbn [flat_map List.length]. rewrite length_app, length_map, IH.
    reflexivity.
Qed.

End PrintMatrixFacts.

(** ** Properties of every run, whatever the environment answers *)

Section EveryRun.
Context {T rocblas_handle hipStream_t RNG : Type}.
Variable X : externals T rocblas_handle hipStream_t RNG.

Local Abbreviation event := (@event T rocblas_handle hipStream_t).
Local Abbreviation M := (M T rocblas_handle hipStream_t RNG).
Local Abbreviation world := (world T RNG).

Lemma always_bind {A B} (P : event -> Prop) (m : M A) (k : A -> M B) :
  always P m -> (forall a, always P (k a)) -> always P (bind m k).
Proof.
  intros Hm Hk w. unfold bind. specialize (Hm w).
  destruct (m w) as [[es w1] [a|]]; cbn [fst snd] in *.
  - specialize (Hk a w1). destruct (k a w1) as [[es' w2] o].
    cbn [fst snd] in *. apply Forall_app. split; assumption.
  - assumption.
Qed.

(** The wrapper the constructor yields is the one holding the created
    handle. *)
Lemma always_bind_ctor {B} (P : event -> Prop)
    (k : @LocalHandle.rocblas_local_handle rocblas_handle -> M B) :
  P (ev_handle (LocalHandle.call_create_handle (rocblas_create_handle X))) ->
  always P (k {| LocalHandle.handle := rocblas_create_handle X |}) ->
  always P (bind (local_handle_ctor X) k).
Proof.
  intros Hc Hk w. unfold bind. rewrite local_handle_ctor_run.
  specialize (Hk w).
  destruct (k _ w) as [[es' w2] o]. cbn [fst snd app] in *.
  constructor; assumption.
Qed.

Lemma always_for_loop (P : event -> Prop) (body : M unit) (n : nat) :
  always P body -> always P (for_loop n body).
Proof.
  intros Hb. induction n as [|n IH].
  - intros w. constructor.
  - cbn [for_loop]. apply always_bind; [assumption | intros _; assumption].
Qed.

Lemma at_most_bind {A B} (a b : nat) (m : M A) (k : A -> M B) :
  at_most a m -> (forall x, at_most b (k x)) -> at_most (a + b) (bind m k).
Proof.
  intros Hm Hk w. unfold bind. specialize (Hm w).
  destruct (m w) as [[es w1] [x|]]; cbn [fst snd] in *.
  - specialize (Hk x w1). destruct (k x w1) as [[es' w2] o].
    cbn [fst snd] in *. rewrite filter_app, length_app. lia.
  - lia.
Qed.

Lemma at_most_for_loop (b : nat) (body : M unit) (n : nat) :
  at_most b body -> at_most (n * b) (for_loop n body).
Proof.
  intros Hb. induction n as [|n IH].
  - intros w. apply Nat.le_refl.
  - cbn [for_loop Nat.mul]. apply at_most_bind; [assumption | intros _; assumption].
Qed.

Lemma at_most_le {A} (a b : nat) (m : M A) :
  at_most a m -> (a <= b)%nat -> at_most b m.
Proof. intros H Hle w. specialize (H w). lia. Qed.

End EveryRun.

(** Walks through a harness function statement by statement. *)
Ltac always_atom :=
  let w := fresh "w" in
  intros w;
  cbv beta iota zeta delta
    [ret emit after_check local_handle_dtor LocalHandle.dtor
     host_vector device_vector memcheck store rocblas_init assign
     transfer_from free rocblas_spr2 rocblas_set_pointer_mode
     rocblas_get_stream cblas_spr2 get_time_us_no_sync get_time_us_sync
     unit_check_general norm_check_general log_args handle_of
     LocalHandle.to_handle LocalHandle.handle snapshot snapshot_alpha];
  cbn [fst snd map];
  repeat (constructor; cbn; auto).

Ltac always_step :=
  match goal with
  | |- always _ (if ?c then _ else _) => destruct c
  | |- always _ (let (_, _) := ?p in _) => destruct p
  | |- always _ (bind _ _) => apply always_bind; [| intros ?]
  | |- always _ (for_loop _ _) => apply always_for_loop
  | |- always _ (CHECK_HIP_ERROR _ _) =>
      unfold CHECK_HIP_ERROR, check_hip
  | |- always _ (CHECK_DEVICE_ALLOCATION _ _) =>
      unfold CHECK_DEVICE_ALLOCATION, check_hip
  | |- always _ (CHECK_ROCBLAS_ERROR _ _) =>
      unfold CHECK_ROCBLAS_ERROR, expect_status
  | |- always _ (EXPECT_ROCBLAS_STATUS _ _ _) =>
      unfold EXPECT_ROCBLAS_STATUS, expect_status
  | |- always _ (scope_exit _) => cbn [scope_exit]
  end.

Ltac always_walk := repeat always_step; try always_atom.

Ltac at_most_atom :=
  let w := fresh "w" in
  intros w;
  cbv beta iota zeta delta
    [ret emit after_check local_handle_ctor local_handle_dtor
     LocalHandle.ctor LocalHandle.dtor
     host_vector device_vector memcheck store rocblas_init assign
     transfer_from free rocblas_spr2 rocblas_set_pointer_mode
     rocblas_get_stream cblas_spr2 get_time_us_no_sync get_time_us_sync
     unit_check_general norm_check_general log_args];
  cbn [fst snd map filter is_spr2 List.length];
  apply Nat.le_refl.

Ltac at_most_step :=
  match goal with
  | |- at_most _ (let (_, _) := ?p in _) => destruct p
  | |- at_most _ (bind _ _) => eapply at_most_bind; [| intros ?]
  | |- at_most _ (for_loop _ _) => eapply at_most_for_loop
  | |- at_most _ (CHECK_HIP_ERROR _ _) =>
      unfold CHECK_HIP_ERROR, check_hip
  | |- at_most _ (CHECK_DEVICE_ALLOCATION _ _) =>
      unfold CHECK_DEVICE_ALLOCATION, check_hip
  | |- at_most _ (CHECK_ROCBLAS_ERROR _ _) =>
      unfold CHECK_ROCBLAS_ERROR, expect_status
  | |- at_most _ (EXPECT_ROCBLAS_STATUS _ _ _) =>
      unfold EXPECT_ROCBLAS_STATUS, expect_status
  | |- at_most _ (scope_exit _) => cbn [scope_exit]
  end.

Ltac at_most_walk := repeat at_most_step; try at_most_atom.

Section EveryRunFacts.
Context {T rocblas_handle hipStream_t RNG : Type}.
Variable X : externals T rocblas_handle hipStream_t RNG.

Local Abbreviation event := (@event T rocblas_handle hipStream_t).

(** X11.  In every run of [testing_spr2], whatever the arguments and
    whatever the environment answers, each call of the vendor function is
    made on the wrapper's handle with the binding chosen by [arg.fortran]
    and the fill mode, [N], [incx] and [incy] of [arg], and the reference
    [cblas_spr2] is called with the same fill mode, size and increments and
    with [arg]'s [alpha]. *)
Theorem testing_spr2_call_parameters (arg : Arguments) (seed : RNG) :
  Forall (uses_arguments X arg) (trace (testing_spr2 X arg) seed).
Proof.
  unfold trace.
  generalize (initial_world (T := T) seed).
  change (always (uses_arguments X arg) (testing_spr2 X arg)).
  unfold testing_spr2. cbv zeta.
  apply always_bind_ctor; [exact I|].
  always_walk.
Qed.

(** X12.  In every run of [testing_spr2] each device vector is allocated
    with the element count of the host vector it mirrors ([dA_1], [dA_2]
    as the host matrices, [dx] as [hx], [dy] as [hy], [d_alpha] as
    [halpha]), and every assignment or transfer is between two vectors
    declared with the same element count. *)
Theorem testing_spr2_sizes_agree (arg : Arguments) (seed : RNG) :
  Forall (sizes_agree arg) (trace (testing_spr2 X arg) seed).
Proof.
  unfold trace.
  generalize (initial_world (T := T) seed).
  change (always (sizes_agree arg) (testing_spr2 X arg)).
  unfold testing_spr2. cbv zeta.
  apply always_bind_ctor; [exact I|].
  always_walk.
Qed.

(** X13.  With [unit_check], [norm_check] and [timing] all clear and valid
    sizes, a run of [testing_spr2] only sets up and tears down: whatever
    the environment answers, it makes no vendor call and no reference
    call, sets no pointer mode, reads no clock, compares nothing and logs
    nothing. *)
Theorem testing_spr2_idle_without_flags (arg : Arguments) (seed : RNG) :
  unit_check arg = false -> norm_check arg = false -> timing arg = false ->
  0 <= arg_N arg -> incx arg <> 0 -> incy arg <> 0 ->
  forallb is_setup (trace (testing_spr2 X arg) seed) = true.
Proof.
  intros Hu Hn Ht HN Hx Hy.
  apply forallb_forall. apply Forall_forall.
  unfold trace.
  generalize (initial_world (T := T) seed).
  change (always (fun e => is_setup e = true) (testing_spr2 X arg)).
  unfold testing_spr2. cbv zeta.
  rewrite (guard_false arg HN Hx Hy), Hu, Hn, Ht. cbn [orb].
  apply always_bind_ctor; [reflexivity|].
  always_walk.
Qed.

(** X14.  Whatever the environment answers, and whatever [arg] holds,
    [testing_spr2_bad_arg] touches device vectors only (no host vector, no
    initialisation, no copy), never sets the pointer mode, calls no
    reference and reads no clock; each of its vendor calls has [N = 100],
    unit increments and the host scalar [0.6], and each status is compared
    with an error code. *)
Theorem testing_spr2_bad_arg_footprint (arg : Arguments) (seed : RNG) :
  Forall (bad_arg_event X arg) (trace (testing_spr2_bad_arg X arg) seed).
Proof.
  unfold trace.
  generalize (initial_world (T := T) seed).
  change (always (bad_arg_event X arg) (testing_spr2_bad_arg X arg)).
  unfold testing_spr2_bad_arg. cbv zeta.
  apply always_bind_ctor; [exact I|].
  always_walk.
  all: discriminate.
Qed.

(** X15.  Whatever the environment answers, [testing_spr2_bad_arg] calls
    the vendor function at most five times. *)
Theorem testing_spr2_bad_arg_at_most_five (arg : Arguments) (seed : RNG) :
  (List.length (filter is_spr2 (trace (testing_spr2_bad_arg X arg) seed))
   <= 5)%nat.
Proof.
  unfold trace.
  generalize (initial_world (T := T) seed).
  change (at_most 5 (testing_spr2_bad_arg X arg)).
  unfold testing_spr2_bad_arg. cbv zeta.
  eapply at_most_le; [at_most_walk | cbn; lia].
Qed.

(** X16.  Whatever the environment answers, a run of [testing_spr2] with
    valid sizes calls the vendor function at most twice for the
    correctness check (if [unit_check] or [norm_check] is set) and at most
    once per trip of the two timing loops (if [timing] is set). *)
Theorem testing_spr2_vendor_calls_bounded (arg : Arguments) (seed : RNG) :
  0 <= arg_N arg -> incx arg <> 0 -> incy arg <> 0 ->
  (List.length (filter is_spr2 (trace (testing_spr2 X arg) seed))
   <= (if unit_check arg || norm_check arg then 2 else 0)
      + (if timing arg
         then Z.to_nat (cold_iters arg) + Z.to_nat (iters arg) else 0))%nat.
Proof.
  intros HN Hx Hy.
  unfold trace.
  generalize (initial_world (T := T) seed).
  match goal with
  | |- forall w, (_ <= ?k)%nat =>
      change (at_most k (testing_spr2 X arg))
  end.
  unfold testing_spr2. cbv zeta.
  rewrite (guard_false arg HN Hx Hy).
  destruct (unit_check arg), (norm_check arg), (timing arg); cbn [orb];
    (eapply at_most_le; [at_most_walk | cbn; lia]).
Qed.

End EveryRunFacts.

(** ** The statuses of the timed calls *)

Section UncheckedCalls.
Context {T rocblas_handle hipStream_t RNG : Type}.
Variable X : externals T rocblas_handle hipStream_t RNG.

Local Abbreviation M := (M T rocblas_handle hipStream_t RNG).
Local Abbreviation world := (world T RNG).

Lemma bind_ext {A B} (m m' : M A) (k k' : A -> M B) :
  (forall w, m w = m' w) -> (forall a w, k a w = k' a w) ->
  forall w, bind m k w = bind m' k' w.
Proof.
  intros Hm Hk w. unfold bind. rewrite Hm.
  destruct (m' w) as [[es w1] [a|]]; [now rewrite Hk | reflexivity].
Qed.

Lemma for_loop_ext (body body' : M unit) :
  (forall w, body w = body' w) ->
  forall n w, for_loop n body w = for_loop n body' w.
Proof.
  intros Hb n. induction n as [|n IH]; intros w; [reflexivity|].
  cbn [for_loop]. apply bind_ext; [exact Hb | intros _; exact IH].
Qed.

(** X17.  The statuses returned by the warm-up and the timed calls are
    never looked at: with [unit_check] and [norm_check] clear and valid
    sizes, a run of [testing_spr2] does the same and ends the same
    whatever status the vendor function returns, in every environment. *)
Theorem testing_spr2_timing_ignores_status (arg : Arguments) (seed : RNG)
    (f : @spr2_call T rocblas_handle -> rocblas_status) :
  unit_check arg = false -> norm_check arg = false ->
  0 <= arg_N arg -> incx arg <> 0 -> incy arg <> 0 ->
  trace (testing_spr2 (with_status X f) arg) seed
    = trace (testing_spr2 X arg) seed /\
  result (testing_spr2 (with_status X f) arg) seed
    = result (testing_spr2 X arg) seed.
Proof.
  intros Hu Hn HN Hx Hy.
  assert (E : forall w : world,
             testing_spr2 (with_status X f) arg w = testing_spr2 X arg w).
  { intros w. unfold testing_spr2. cbv zeta.
    rewrite (guard_false arg HN Hx Hy), Hu, Hn. cbn [orb].
    repeat match goal with
           | |- (if ?c then _ else _) _ = (if ?c then _ else _) _ =>
               destruct c
           | |- (let (_, _) := ?p in _) _ = _ => destruct p
           | w0 : world |- for_loop _ _ ?w0 = for_loop _ _ ?w0 =>
               revert w0; apply for_loop_ext; intros w0; reflexivity
           | w0 : world |- bind _ _ ?w0 = bind _ _ ?w0 =>
               revert w0; apply bind_ext; [intros w0 | intros ? w0]
           end; reflexivity. }
  unfold trace, result. now rewrite E.
Qed.

End UncheckedCalls.

(** ** More on cooperative runs *)

Section CooperativeRuns.
Context {T rocblas_handle hipStream_t RNG : Type}.
Variable X : externals T rocblas_handle hipStream_t RNG.

Local Abbreviation event := (@event T rocblas_handle hipStream_t).
Local Abbreviation M := (M T rocblas_handle hipStream_t RNG).
Local Abbreviation world := (world T RNG).

Lemma filter_all {A} (p : A -> bool) (l : list A) :
  forallb p l = true -> filter p l = l.
Proof.
  induction l as [|a l IH]; [reflexivity|].
  cbn [forallb filter]. intros H. apply andb_true_iff in H.
  destruct H as [-> H]. now rewrite IH.
Qed.

Lemma flat_map_none {A B} (p : A -> bool) (g : A -> list B) (l : list A) :
  (forall a, p a = true -> g a = []) ->
  forallb p l = true -> flat_map g l = [].
Proof.
  intros Hg. induction l as [|a l IH]; [reflexivity|].
  cbn [forallb flat_map]. intros H. apply andb_true_iff in H.
  destruct H as [Ha H]. now rewrite (Hg a Ha), IH.
Qed.

(** A loop of vendor calls entered in host pointer mode: it returns after
    one call per trip, every call is made in host pointer mode, and
    neither the pointer mode nor the clock count has changed. *)
Lemma for_loop_host_calls (P : event -> Prop) (body : M unit) :
  (forall w, pmode w = Some rocblas_pointer_mode_host -> exists e w',
      body w = ([e], w', Returned tt) /\ is_spr2 e = true /\ P e /\
      pmode w' = Some rocblas_pointer_mode_host /\ ticks w' = ticks w) ->
  forall (n : nat) (w : world),
    pmode w = Some rocblas_pointer_mode_host ->
    exists es w',
      for_loop n body w = (es, w', Returned tt) /\
      List.length es = n /\ forallb is_spr2 es = true /\ Forall P es /\
      pmode w' = Some rocblas_pointer_mode_host /\ ticks w' = ticks w.
Proof.
  intros Hbody n. induction n as [|n IH]; intros w Hw.
  - exists [], w. repeat split; [constructor | assumption].
  - destruct (Hbody w Hw) as (e & w1 & Eb & He & HP & Hw1 & Ht).
    destruct (IH w1 Hw1) as (es & w2 & El & Hlen & Hall & HPs & Hw2 & Ht').
    exists (e :: es), w2. cbn [for_loop]. unfold bind. rewrite Eb, El.
    cbn [app List.length forallb]. rewrite He, Hall, Hlen, Ht', Ht.
    repeat split; [constructor; assumption | assumption].
Qed.

Ltac run_calls H es w' Hlen Hall Htk :=
  match type of H with
  | context [for_loop ?n ?b ?w] =>
      let HB := fresh "HB" in
      let E := fresh "E" in
      assert (HB : forall w0, exists e w1,
                 b w0 = ([e], w1, Returned tt) /\ is_spr2 e = true /\
                 ticks w1 = ticks w0)
        by (intros w0; do 2 eexists; split; [reflexivity | split; reflexivity]);
      destruct (for_loop_calls b HB n w) as (es & w' & E & Hlen & Hall & Htk);
      rewrite E in H; clear E HB;
      let tk := fresh "tk" in
      destruct w' as [? ? tk ?]; harness_eval Htk; subst tk;
      harness_eval H
  end.

(** X18.  In a cooperative environment a run of [testing_spr2] with valid
    sizes calls the vendor function exactly twice for the correctness
    check (if [unit_check] or [norm_check] is set) plus once per trip of
    the warm-up loop and of the timed loop (if [timing] is set). *)
Theorem testing_spr2_vendor_call_count (arg : Arguments) (seed : RNG) :
  0 <= arg_N arg -> incx arg <> 0 -> incy arg <> 0 ->
  cooperative X arg ->
  List.length (filter is_spr2 (trace (testing_spr2 X arg) seed))
  = ((if unit_check arg || norm_check arg then 2 else 0)
     + (if timing arg
        then Z.to_nat (cold_iters arg) + Z.to_nat (iters arg) else 0))%nat.
Proof.
  intros HN Hx Hy [Hmem Htrf Hpm Hst Hspr].
  remember (trace (testing_spr2 X arg) seed) as tr eqn:Htr.
  unfold trace, testing_spr2 in Htr.
  rewrite (guard_false arg HN Hx Hy) in Htr.
  destruct (unit_check arg), (norm_check arg), (timing arg);
    try specialize (Hspr eq_refl);
    settle_checks Htr Hmem Htrf Hpm Hst Hspr
      hipError_eqb_success rocblas_status_eqb_refl;
    try (run_calls Htr cold w1 Hlen1 Hall1 Htk1;
         settle_checks Htr Hmem Htrf Hpm Hst Hspr
           hipError_eqb_success rocblas_status_eqb_refl;
         run_calls Htr hot w2 Hlen2 Hall2 Htk2);
    cbn [fst snd app map] in Htr;
    repeat (rewrite <- app_assoc in Htr; cbn [app] in Htr);
    subst tr;
    repeat (progress
              (cbn [filter is_spr2 List.length orb];
               rewrite ?filter_app, ?length_app));
    rewrite ?(filter_all _ _ Hall1), ?(filter_all _ _ Hall2), ?Hlen1, ?Hlen2;
    lia.
Qed.

Ltac run_host_calls H arg es w' Hlen Hall HP :=
  match type of H with
  | context [for_loop ?n ?b ?w] =>
      let HB := fresh "HB" in
      let E := fresh "E" in
      let Hpm' := fresh "Hpm'" in
      let Htk := fresh "Htk" in
      assert (HB : forall w0,
                 pmode w0 = Some rocblas_pointer_mode_host ->
                 exists e w1,
                   b w0 = ([e], w1, Returned tt) /\ is_spr2 e = true /\
                   host_mode_call X arg e /\
                   pmode w1 = Some rocblas_pointer_mode_host /\
                   ticks w1 = ticks w0)
        by (intros [? ? ? pm0] Hw0; cbn in Hw0; subst pm0; do 2 eexists;
            split; [reflexivity|]; split; [reflexivity|];
            split; [cbn;
                    repeat match goal with
                           | |- _ /\ _ => split
                           | |- exists _, _ => eexists
                           end; reflexivity
                   | split; reflexivity]);
      destruct (for_loop_host_calls (host_mode_call X arg) b HB n w eq_refl)
        as (es & w' & E & Hlen & Hall & HP & Hpm' & Htk);
      rewrite E in H; clear E HB;
      let tk := fresh "tk" in
      let pm := fresh "pm" in
      destruct w' as [? ? tk pm]; harness_eval Htk; harness_eval Hpm';
      subst tk pm; harness_eval H
  end.

(** X19.  In a cooperative environment with [timing] set, everything from
    the timing branch on runs in host pointer mode: the run splits into a
    first part, holding the two calls of the correctness check if one was
    requested and no vendor call otherwise, and a second part holding the
    calls of the warm-up and timed loops, each of them made in host
    pointer mode with [alpha] taken from the host and on [dx], [dy] and
    [dA_1]; this also when the correctness check left the handle in
    device pointer mode. *)
Theorem testing_spr2_timed_calls_host_mode (arg : Arguments) (seed : RNG) :
  timing arg = true ->
  0 <= arg_N arg -> incx arg <> 0 -> incy arg <> 0 ->
  cooperative X arg ->
  exists pre timed : list event,
    trace (testing_spr2 X arg) seed = pre ++ timed /\
    List.length (filter is_spr2 pre)
      = (if unit_check arg || norm_check arg then 2 else 0)%nat /\
    List.length (filter is_spr2 timed)
      = (Z.to_nat (cold_iters arg) + Z.to_nat (iters arg))%nat /\
    Forall (host_mode_call X arg) timed.
Proof.
  intros Htime HN Hx Hy [Hmem Htrf Hpm Hst Hspr].
  remember (trace (testing_spr2 X arg) seed) as tr eqn:Htr.
  unfold trace, testing_spr2 in Htr.
  rewrite (guard_false arg HN Hx Hy), Htime in Htr.
  destruct (unit_check arg), (norm_check arg);
    try specialize (Hspr eq_refl);
    settle_checks Htr Hmem Htrf Hpm Hst Hspr
      hipError_eqb_success rocblas_status_eqb_refl;
    run_host_calls Htr arg cold w1 Hlen1 Hall1 HP1;
    settle_checks Htr Hmem Htrf Hpm Hst Hspr
      hipError_eqb_success rocblas_status_eqb_refl;
    run_host_calls Htr arg hot w2 Hlen2 Hall2 HP2;
    cbn [fst snd app map] in Htr;
    repeat (rewrite <- app_assoc in Htr; cbn [app] in Htr);
    [ exists (firstn 69 tr), (skipn 69 tr)
    | exists (firstn 67 tr), (skipn 67 tr)
    | exists (firstn 67 tr), (skipn 67 tr)
    | exists (firstn 50 tr), (skipn 50 tr) ];
    subst tr; cbn [firstn skipn];
    (split; [cbn [app]; reflexivity|]);
    (split; [reflexivity|]);
    (split;
     [ repeat (progress
                 (cbn [filter is_spr2 List.length];
                  rewrite ?filter_app, ?length_app));
       rewrite (filter_all _ _ Hall1), (filter_all _ _ Hall2), Hlen1, Hlen2;
       lia
     | repeat first [ apply Forall_nil
                    | apply Forall_cons; [exact I|]
                    | apply Forall_app; split; [assumption|] ] ]).
Qed.

Lemma ends_one {A} (x : A) : exists b, [x] = b ++ [x].
Proof. now exists []. Qed.

Lemma ends_cons {A} (a x : A) (l : list A) :
  (exists b, l = b ++ [x]) -> exists b, a :: l = b ++ [x].
Proof. intros [b ->]. now exists (a :: b). Qed.

Lemma ends_app {A} (x : A) (l l' : list A) :
  (exists b, l' = b ++ [x]) -> exists b, l ++ l' = b ++ [x].
Proof. intros [b ->]. exists (l ++ b). now rewrite app_assoc. Qed.

(** X20.  In a cooperative environment a run of [testing_spr2] with valid
    sizes releases every vector it allocated, each exactly once and in
    the reverse order of the allocations, and ends by destroying the
    handle. *)
Theorem testing_spr2_releases_in_reverse (arg : Arguments) (seed : RNG) :
  0 <= arg_N arg -> incx arg <> 0 -> incy arg <> 0 ->
  cooperative X arg ->
  let tr := trace (testing_spr2 X arg) seed in
  flat_map freed tr = rev (flat_map allocated tr) /\
  NoDup (flat_map allocated tr) /\
  List.length (flat_map allocated tr) = 11%nat /\
  exists body,
    tr = body ++
         [ev_handle (LocalHandle.call_destroy_handle (rocblas_create_handle X))].
Proof.
  intros HN Hx Hy [Hmem Htrf Hpm Hst Hspr]. cbv zeta.
  remember (trace (testing_spr2 X arg) seed) as tr eqn:Htr.
  unfold trace, testing_spr2 in Htr.
  rewrite (guard_false arg HN Hx Hy) in Htr.
  assert (Hna : forall es : list event,
             forallb is_spr2 es = true -> flat_map allocated es = [])
    by (intros es Hes; apply (flat_map_none is_spr2);
        [intros [] E; (discriminate || reflexivity) | exact Hes]).
  assert (Hnf : forall es : list event,
             forallb is_spr2 es = true -> flat_map freed es = [])
    by (intros es Hes; apply (flat_map_none is_spr2);
        [intros [] E; (discriminate || reflexivity) | exact Hes]).
  destruct (unit_check arg), (norm_check arg), (timing arg);
    try specialize (Hspr eq_refl);
    settle_checks Htr Hmem Htrf Hpm Hst Hspr
      hipError_eqb_success rocblas_status_eqb_refl;
    try (run_calls Htr cold w1 Hlen1 Hall1 Htk1;
         settle_checks Htr Hmem Htrf Hpm Hst Hspr
           hipError_eqb_success rocblas_status_eqb_refl;
         run_calls Htr hot w2 Hlen2 Hall2 Htk2);
    cbn [fst snd app map] in Htr;
    repeat (rewrite <- app_assoc in Htr; cbn [app] in Htr);
    subst tr;
    repeat (progress
              (cbn [flat_map allocated freed app];
               rewrite ?flat_map_app, ?(Hna _ Hall1), ?(Hna _ Hall2),
                 ?(Hnf _ Hall1), ?(Hnf _ Hall2)));
    (split; [reflexivity|]);
    (split; [repeat constructor; cbn; intuition discriminate|]);
    (split; [reflexivity|]);
    repeat first [ apply ends_one | apply ends_cons | apply ends_app ].
Qed.

End CooperativeRuns.

(* ================================================================== *)
(** * The theorems on concrete runs *)

(** The definitions evaluated on small inputs. *)

Example size_A_of_100 : size_A_of 100 = 5050.
Proof. reflexivity. Qed.

Example size_vec_of_negative_increment :
  size_vec_of 100 (abs_inc (-2)) = 200.
Proof. reflexivity. Qed.

Example print_value_integer :
  PrintHelper.print_value (fun _ => "42"%string) (S754_finite false 21 1)
  = "42.0"%string.
Proof. reflexivity. Qed.

Example print_value_exponent :
  PrintHelper.print_value (fun _ => "1e+100"%string) (S754_finite false 1 0)
  = "1e+100"%string.
Proof. reflexivity. Qed.

Example print_value_negative_infinity :
  PrintHelper.print_value (fun _ => ""%string) (S754_infinity true)
  = "-.inf"%string.
Proof. reflexivity. Qed.

Example bad_arg_passes_in_sample_environment :
  result (testing_spr2_bad_arg sample_externals
            (sample_arguments false false false 0 0 0)) O = Returned tt.
Proof. vm_compute. reflexivity. Qed.

Example timing_run_makes_five_calls :
  List.length
    (filter is_spr2
       (trace (testing_spr2 sample_externals
                 (sample_arguments false false true 3 1 1)) O)) = 5%nat.
Proof. vm_compute. reflexivity. Qed.

Example negative_n_allocates_nothing :
  trace (testing_spr2 sample_externals
           (sample_arguments true true true (-1) 1 1)) O
  = [ev_handle (LocalHandle.call_create_handle 7%nat);
     ev_spr2 {| c_fortran := false; c_mode := None; c_handle := Some 7%nat;
                c_uplo := rocblas_fill_upper; c_N := -1;
                c_alpha := scalar_null; c_x := vec_null; c_incx := 1;
                c_y := vec_null; c_incy := 1; c_A := vec_null |};
     ev_expect macro_EXPECT_ROCBLAS_STATUS
       rocblas_status_invalid_size rocblas_status_invalid_size;
     ev_handle (LocalHandle.call_destroy_handle 7%nat)].
Proof. vm_compute. reflexivity. Qed.

(** The sample environment is cooperative for sample arguments with valid
    sizes. *)
Ltac sample_is_cooperative :=
  constructor;
  [ intros; reflexivity | intros; reflexivity | intros; reflexivity
  | intros; reflexivity
  | intros _ c (Hh & Hu & HN & Hix & Hiy & Ha & Hx & Hy & HA);
    cbn in Hh, Hu, HN, Hix, Hiy |- *; unfold sample_status;
    rewrite Hh, Hu, HN, Hix, Hiy; cbn;
    destruct (c_alpha c), (c_x c), (c_y c), (c_A c); congruence ].

(** C3 on a run with [N = -1]. *)
Lemma testing_spr2_invalid_size_witness :
  arg_N (sample_arguments true true true (-1) 1 1) < 0 /\
  existsb is_alloc
    (trace (testing_spr2 sample_externals
              (sample_arguments true true true (-1) 1 1)) O) = false.
Proof.
  assert (H : arg_N (sample_arguments true true true (-1) 1 1) < 0)
    by (cbn; lia).
  split; [exact H|].
  exact (proj1 (proj2 (testing_spr2_invalid_size sample_externals
                         (sample_arguments true true true (-1) 1 1) O
                         (or_introl H)))).
Defined.

(** C2 on a run in the sample environment, whose vendor answers as
    documented. *)
Lemma testing_spr2_bad_arg_probes_witness :
  rejects_as_documented sample_externals /\
  exists c,
    c_handle c = None /\
    In (ev_expect macro_EXPECT_ROCBLAS_STATUS
          (rocblas_spr2_status sample_externals c)
          rocblas_status_invalid_handle)
       (trace (testing_spr2_bad_arg sample_externals
                 (sample_arguments false false false 0 0 0)) O).
Proof.
  assert (Hdoc : rejects_as_documented sample_externals).
  { constructor; intros c; cbn; unfold sample_status.
    - intros ->. reflexivity.
    - intros Hh ->. destruct (c_handle c); [reflexivity | congruence].
    - intros Hh Hu HN Hix Hiy Hp. destruct (c_handle c); [|congruence].
      apply Z.eqb_neq in Hix, Hiy.
      assert (Hsz : (c_N c <? 0) || (c_incx c =? 0) || (c_incy c =? 0) = false).
      { apply orb_false_iff. split; [apply orb_false_iff; split|];
          [apply Z.ltb_ge; lia | exact Hix | exact Hiy]. }
      rewrite Hsz.
      destruct (c_uplo c); try congruence;
        destruct Hp as [-> | [-> | ->]];
        destruct (c_alpha c); try reflexivity;
        destruct (c_x c); try reflexivity;
        destruct (c_y c); reflexivity. }
  split; [exact Hdoc|].
  destruct (testing_spr2_bad_arg_probes sample_externals
              (sample_arguments false false false 0 0 0) O
              (fun _ => eq_refl) (or_intror Hdoc))
    as (pre & post & x0 & y0 & A1 & A2 & A3 & A5 & E).
  cbv zeta in E. rewrite E. eexists. split; [|apply in_or_app; right].
  2: { do 9 right. left. reflexivity. }
  reflexivity.
Defined.

(** C1 on a correctness run with [N = 3], [incx = 1], [incy = -1]. *)
Lemma testing_spr2_compares_with_reference_witness :
  cooperative sample_externals (sample_arguments true true false 3 1 (-1)) /\
  exists gold result_2,
    In (ev_norm_check "F" 1 6 1 gold result_2)
       (trace (testing_spr2 sample_externals
                 (sample_arguments true true false 3 1 (-1))) O).
Proof.
  assert (Hc : cooperative sample_externals
                 (sample_arguments true true false 3 1 (-1)))
    by sample_is_cooperative.
  split; [exact Hc|].
  destruct (testing_spr2_compares_with_reference sample_externals
              (sample_arguments true true false 3 1 (-1)) O
              eq_refl ltac:(cbn; lia) ltac:(cbn; lia) ltac:(cbn; lia) Hc)
    as (pre & post & A0 & x0 & y0 & E).
  cbv zeta in E. rewrite E.
  cbn [unit_check norm_check sample_arguments app].
  do 2 eexists. apply in_or_app; right.
  do 18 right. left. reflexivity.
Defined.

(** C4 on the same run. *)
Lemma testing_spr2_identical_inputs_witness :
  cooperative sample_externals (sample_arguments true true false 3 1 (-1)) /\
  exists A0 x0 y0,
    In (ev_cblas_spr2 rocblas_fill_upper 3 2 x0 1 y0 (-1) A0)
       (trace (testing_spr2 sample_externals
                 (sample_arguments true true false 3 1 (-1))) O) /\
    In (ev_transfer dA_2 hA_1 A0)
       (trace (testing_spr2 sample_externals
                 (sample_arguments true true false 3 1 (-1))) O).
Proof.
  assert (Hc : cooperative sample_externals
                 (sample_arguments true true false 3 1 (-1)))
    by sample_is_cooperative.
  split; [exact Hc|].
  destruct (testing_spr2_identical_inputs sample_externals
              (sample_arguments true true false 3 1 (-1)) O
              eq_refl ltac:(cbn; lia) ltac:(cbn; lia) ltac:(cbn; lia) Hc)
    as (pre & post & A0 & x0 & y0 & E).
  cbv zeta in E. rewrite E.
  exists A0, x0, y0. split; apply in_or_app; right.
  - do 24 right. left. reflexivity.
  - do 7 right. left. reflexivity.
Defined.

(** C7 on a timing run with [cold_iters = 2] and [iters = 3]. *)
Lemma testing_spr2_timed_region_witness :
  cooperative sample_externals (sample_arguments false false true 3 1 1) /\
  exists pre hot post s,
    trace (testing_spr2 sample_externals
             (sample_arguments false false true 3 1 1)) O
      = pre ++ [ev_time_sync s] ++ hot ++ [ev_time_sync s] ++ post /\
    List.length hot = 3%nat /\ forallb is_spr2 hot = true.
Proof.
  assert (Hc : cooperative sample_externals
                 (sample_arguments false false true 3 1 1))
    by sample_is_cooperative.
  split; [exact Hc|].
  destruct (testing_spr2_timed_region sample_externals
              (sample_arguments false false true 3 1 1) O
              eq_refl ltac:(cbn; lia) ltac:(cbn; lia) ltac:(cbn; lia) Hc)
    as (pre & cold & hot & post & s & k & c & e1 & e2
        & E & Hl1 & Ha1 & Hl2 & Hm & Ha2 & Hp1 & Hp2).
  rewrite E.
  eexists (pre ++ cold ++ [_; _]), hot, (_ :: post), s.
  split; [|split; [exact Hl2 | exact Ha2]].
  rewrite <- !app_assoc. reflexivity.
Defined.

(** C8 on a timing run with neither check requested. *)
Lemma testing_spr2_logs_unassigned_witness :
  cooperative sample_externals (sample_arguments false false true 3 1 1) /\
  exists gpu_time,
    In (ev_log_args gpu_time (S754_zero false) (S754_zero false)
          None None None)
       (trace (testing_spr2 sample_externals
                 (sample_arguments false false true 3 1 1)) O).
Proof.
  assert (Hc : cooperative sample_externals
                 (sample_arguments false false true 3 1 1))
    by sample_is_cooperative.
  split; [exact Hc|].
  destruct (testing_spr2_logs_unassigned sample_externals
              (sample_arguments false false true 3 1 1) O
              eq_refl eq_refl ltac:(cbn; lia) ltac:(cbn; lia) ltac:(cbn; lia)
              Hc)
    as (g & c & Hin & Hcpu).
  rewrite (Hcpu eq_refl) in Hin.
  exists g. exact Hin.
Defined.

(** ** Further properties on concrete inputs *)

(** X4 with a conversion that prints [1.5] for every value. *)
Lemma print_value_complex_one_comma_witness :
  count_char "," (print_value_complex (fun _ => "1.5"%string)
                    (S754_finite false 3 (-1)) (S754_zero false)) = 1%nat.
Proof.
  exact (print_value_complex_one_comma (fun _ => "1.5"%string)
           (S754_finite false 3 (-1)) (S754_zero false) eq_refl eq_refl).
Defined.

(** X5 on a 2 by 3 block of a seven-element vector. *)
Lemma rocblas_print_matrix_compare_dense_witness :
  map line_cpu
    (rocblas_print_matrix_compare [1; 2; 3; 4; 5; 6; 7] [6; 5; 4; 3; 2; 1]
       2 3 3)
  = [Some 1; Some 2; Some 3; Some 4; Some 5; Some 6].
Proof.
  exact (proj1 (rocblas_print_matrix_compare_dense
                  [1; 2; 3; 4; 5; 6; 7] [6; 5; 4; 3; 2; 1] 2 3
                  ltac:(lia) ltac:(lia) ltac:(cbn; lia) ltac:(cbn; lia))).
Defined.

(** X6 with [m = 2], [n = 2] and [lda = 3]. *)
Lemma rocblas_print_matrix_compare_in_bounds_witness :
  Forall (fun l => line_cpu l <> None /\ line_gpu l <> None)
    (rocblas_print_matrix_compare [1; 2; 3; 4; 5] [5; 4; 3; 2; 1] 2 2 3).
Proof.
  refine (Forall_impl _ _
            (rocblas_print_matrix_compare_in_bounds
               [1; 2; 3; 4; 5] [5; 4; 3; 2; 1] 2 2 3
               ltac:(lia) ltac:(cbn; lia) ltac:(cbn; lia))).
  intros l (_ & Hc & _ & Hg). split; assumption.
Defined.

(** X8 on a 2 by 2 matrix stored with [lda = 3]. *)
Lemma rocblas_print_matrix_elements_witness :
  cout_elements (rocblas_print_matrix "A" [11; 21; 0; 12; 22; 0] 2 2 3)
  = [Some 11; Some 12; Some 21; Some 22].
Proof.
  exact (proj1 (rocblas_print_matrix_elements "A" [11; 21; 0; 12; 22; 0]
                  2 2 3 ltac:(lia) ltac:(lia) ltac:(cbn; lia))).
Defined.

(** X9 on a run with both checks and timing. *)
Lemma testing_spr2_returns_witness :
  cooperative sample_externals (sample_arguments true true true 3 1 (-1)) /\
  result (testing_spr2 sample_externals
            (sample_arguments true true true 3 1 (-1))) O = Returned tt.
Proof.
  assert (Hc : cooperative sample_externals
                 (sample_arguments true true true 3 1 (-1)))
    by sample_is_cooperative.
  split; [exact Hc|].
  exact (testing_spr2_returns sample_externals
           (sample_arguments true true true 3 1 (-1)) O
           ltac:(cbn; lia) ltac:(cbn; lia) ltac:(cbn; lia) Hc).
Defined.

(** X10 with [N = 4], [incx = -2], [incy = 3]. *)
Lemma testing_spr2_host_allocation_sizes_witness :
  exists rest,
    trace (testing_spr2 sample_externals
             (sample_arguments false false false 4 (-2) 3)) O
    = [ev_handle (LocalHandle.call_create_handle 7%nat);
       ev_alloc hA_1 10; ev_alloc hA_2 10; ev_alloc hA_gold 10;
       ev_alloc hx 8; ev_alloc hy 12; ev_alloc halpha 1] ++ rest.
Proof.
  exact (testing_spr2_host_allocation_sizes sample_externals
           (sample_arguments false false false 4 (-2) 3) O
           ltac:(cbn; lia) ltac:(cbn; lia) ltac:(cbn; lia)
           ltac:(cbn; lia) ltac:(cbn; lia)).
Defined.

(** X13 on a run with no flag set. *)
Lemma testing_spr2_idle_without_flags_witness :
  forallb is_setup
    (trace (testing_spr2 sample_externals
              (sample_arguments false false false 3 1 1)) O) = true.
Proof.
  exact (testing_spr2_idle_without_flags sample_externals
           (sample_arguments false false false 3 1 1) O
           eq_refl eq_refl eq_refl
           ltac:(cbn; lia) ltac:(cbn; lia) ltac:(cbn; lia)).
Defined.

(** X16 on a run with both checks and timing: at most [2 + 2 + 3]
    calls. *)
Lemma testing_spr2_vendor_calls_bounded_witness :
  (List.length
     (filter is_spr2
        (trace (testing_spr2 sample_externals
                  (sample_arguments true true true 3 1 1)) O)) <= 7)%nat.
Proof.
  exact (testing_spr2_vendor_calls_bounded sample_externals
           (sample_arguments true true true 3 1 1) O
           ltac:(cbn; lia) ltac:(cbn; lia) ltac:(cbn; lia)).
Defined.

(** X17 with a vendor that answers every call with
    [rocblas_status_invalid_handle]. *)
Lemma testing_spr2_timing_ignores_status_witness :
  trace (testing_spr2
           (with_status sample_externals
              (fun _ => rocblas_status_invalid_handle))
           (sample_arguments false false true 3 1 1)) O
  = trace (testing_spr2 sample_externals
             (sample_arguments false false true 3 1 1)) O.
Proof.
  exact (proj1 (testing_spr2_timing_ignores_status sample_externals
                  (sample_arguments false false true 3 1 1) O
                  (fun _ => rocblas_status_invalid_handle)
                  eq_refl eq_refl
                  ltac:(cbn; lia) ltac:(cbn; lia) ltac:(cbn; lia))).
Defined.

(** X18 on a run with [unit_check] and timing: [2 + 2 + 3] calls. *)
Lemma testing_spr2_vendor_call_count_witness :
  cooperative sample_externals (sample_arguments true false true 3 1 1) /\
  List.length
    (filter is_spr2
       (trace (testing_spr2 sample_externals
                 (sample_arguments true false true 3 1 1)) O)) = 7%nat.
Proof.
  assert (Hc : cooperative sample_externals
                 (sample_arguments true false true 3 1 1))
    by sample_is_cooperative.
  split; [exact Hc|].
  exact (testing_spr2_vendor_call_count sample_externals
           (sample_arguments true false true 3 1 1) O
           ltac:(cbn; lia) ltac:(cbn; lia) ltac:(cbn; lia) Hc).
Defined.

(** X19 on a run with [norm_check] and timing. *)
Lemma testing_spr2_timed_calls_host_mode_witness :
  cooperative sample_externals (sample_arguments false true true 3 1 1) /\
  exists pre timed,
    trace (testing_spr2 sample_externals
             (sample_arguments false true true 3 1 1)) O = pre ++ timed /\
    List.length (filter is_spr2 pre) = 2%nat /\
    List.length (filter is_spr2 timed) = 5%nat /\
    Forall (host_mode_call sample_externals
              (sample_arguments false true true 3 1 1)) timed.
Proof.
  assert (Hc : cooperative sample_externals
                 (sample_arguments false true true 3 1 1))
    by sample_is_cooperative.
  split; [exact Hc|].
  exact (testing_spr2_timed_calls_host_mode sample_externals
           (sample_arguments false true true 3 1 1) O
           eq_refl ltac:(cbn; lia) ltac:(cbn; lia) ltac:(cbn; lia) Hc).
Defined.

(** X20 on a run with both checks and timing. *)
Lemma testing_spr2_releases_in_reverse_witness :
  cooperative sample_externals (sample_arguments true true true 3 1 1) /\
  flat_map freed
    (trace (testing_spr2 sample_externals
              (sample_arguments true true true 3 1 1)) O)
  = rev (flat_map allocated
           (trace (testing_spr2 sample_externals
                     (sample_arguments true true true 3 1 1)) O)).
Proof.
  assert (Hc : cooperative sample_externals
                 (sample_arguments true true true 3 1 1))
    by sample_is_cooperative.
  split; [exact Hc|].
  exact (proj1 (testing_spr2_releases_in_reverse sample_externals
                  (sample_arguments true true true 3 1 1) O
                  ltac:(cbn; lia) ltac:(cbn; lia) ltac:(cbn; lia) Hc)).
Defined.
